(** * ModalView: the open / dismiss lifecycle of kivy's modal overlay

    A shallow embedding of [kivy/uix/modalview.py] (class [ModalView]) and
    the properties of its lifecycle: attach / detach on the shared window,
    fade animations, veto of a dismissal, touch and keyboard handling.

    The methods of [ModalView] are translated statement by statement into a
    small state-and-exception monad over a [World] that holds the view, the
    window singleton, the animation objects created so far and a
    chronological log of the calls made on the collaborators.  The
    collaborators themselves (window, animation, event dispatcher, widget
    base class) live outside [modalview.py]; their definitions below are
    marked as modelled from the specification. *)

From Stdlib Require Import ZArith QArith List Bool String Lia.
From stdpp Require Import base option list.
Import ListNotations.

Local Open Scope string_scope.
Local Open Scope list_scope.

(** ** Data model *)

Module Modal.

(** Widgets are identified by their [uid]; animation objects by the order
    in which they were created. *)
Definition wid := nat.
Definition handle := nat.
Definition point : Type := (Z * Z)%type.

(** [from kivy.core.window import Window]: one process-wide window. *)
Inductive window_ref : Type := TheWindow.

(** Python exceptions the methods can raise. *)
Inductive exn : Type :=
| AttributeError.

(** What a handler returns: [True], or nothing ([None]). *)
Inductive pyret : Type :=
| PyTrue
| PyNone.

Definition truthy (r : pyret) : bool :=
  match r with PyTrue => true | PyNone => false end.

(** The fields of a [ModalView] that the lifecycle reads or writes.  The
    colour, texture and border properties are only used for drawing.
    [center] and [size] come from the widget base class; [center_fbinds]
    and [size_fbinds] count the [_align_center] callbacks registered with
    [fbind] on the view's own properties. *)
Record ModalView : Type := mkModalView {
  uid : wid;
  auto_dismiss : bool;
  _anim : option handle;
  _anim_alpha : Q;
  _anim_duration : Q;
  _window : option window_ref;
  _is_open : bool;
  _touch_started_inside : option bool;
  center : point;
  size : point;
  center_fbinds : nat;
  size_fbinds : nat
}.

(** Modelled from the spec: the DisplayRoot (kivy's [Window]), which is not
    part of [modalview.py].  It keeps a widget collection (index 0 is the
    topmost widget), the subscribers of its resize and keyboard
    notifications, and its current center. *)
Record WindowBase : Type := mkWindow {
  children : list wid;
  on_resize_subs : list wid;
  on_keyboard_subs : list wid;
  win_center : point
}.

(** The two closures that [modalview.py] binds to [on_complete]:
    [lambda *_args: self.dispatch('on_open')] and
    [lambda *args: self._real_remove_widget()]. *)
Inductive completion : Type :=
| LambdaDispatchOnOpen
| LambdaRealRemoveWidget.

(** Modelled from the spec: an animation object of the AnimationService
    ([kivy.animation.Animation], not part of [modalview.py]): the value
    [_anim_alpha] is driven to, the duration, the bound completion callbacks
    and whether the animation is currently running on the view. *)
Record Animation : Type := mkAnimation {
  to_anim_alpha : Q;
  d : Q;
  on_complete : list completion;
  running : bool
}.

Inductive phase : Type :=
| TouchDown
| TouchMove
| TouchUp.

Record Touch : Type := mkTouch { pos : point }.

(** Calls made on the collaborators, in the order in which they happen. *)
Inductive action : Type :=
| Dispatch (name : string)
| AddWidget (u : wid)
| RemoveWidget (u : wid)
| Bind (u : wid)
| Unbind (u : wid)
| SetAlpha (a : Q)
| AnimStart (h : handle)
| AnimStop (h : handle)
| AnimComplete (h : handle)
| Super (p : phase) (t : Touch)
| SuperMotion.

Record World : Type := mkWorld {
  view : ModalView;
  Window : WindowBase;
  animations : list Animation;
  trace : list action
}.

(** Keyword arguments of [open] and [dismiss]; an absent key is [None]. *)
Record Kwargs : Type := mkKwargs {
  animation : option bool;
  force : option bool
}.

Definition no_kwargs : Kwargs := {| animation := None; force := None |}.

(** [kwargs.get(key, dflt)] *)
Definition kwargs_get (o : option bool) (dflt : bool) : bool :=
  match o with Some b => b | None => dflt end.

(** ** The monad: state passing with exceptions *)

Inductive result (A : Type) : Type :=
| Ok (a : A) (w : World)
| Raise (e : exn).
Arguments Ok {A} a w.
Arguments Raise {A} e.

Definition M (A : Type) : Type := World -> result A.

#[export] Instance M_ret : MRet M := fun A a w => Ok a w.
#[export] Instance M_bind : MBind M := fun A B f m w =>
  match m w with
  | Ok a w' => f a w'
  | Raise e => Raise e
  end.

Definition raise {A : Type} (e : exn) : M A := fun _ => Raise e.

Definition get_self : M ModalView := fun w => Ok (view w) w.

Definition modify_self (f : ModalView -> ModalView) : M unit := fun w =>
  Ok tt {| view := f (view w); Window := Window w;
           animations := animations w; trace := trace w |}.

Definition get_Window : M WindowBase := fun w => Ok (Window w) w.

Definition modify_Window (f : WindowBase -> WindowBase) : M unit := fun w =>
  Ok tt {| view := view w; Window := f (Window w);
           animations := animations w; trace := trace w |}.

Definition get_animations : M (list Animation) := fun w => Ok (animations w) w.

Definition modify_animations (f : list Animation -> list Animation) : M unit :=
  fun w =>
  Ok tt {| view := view w; Window := Window w;
           animations := f (animations w); trace := trace w |}.

Definition log (a : action) : M unit := fun w =>
  Ok tt {| view := view w; Window := Window w;
           animations := animations w; trace := trace w ++ [a] |}.

(** ** Attribute assignment on the view *)

Definition set__anim (x : option handle) (v : ModalView) : ModalView :=
  {| uid := uid v; auto_dismiss := auto_dismiss v; _anim := x;
     _anim_alpha := _anim_alpha v; _anim_duration := _anim_duration v;
     _window := _window v; _is_open := _is_open v;
     _touch_started_inside := _touch_started_inside v;
     center := center v; size := size v;
     center_fbinds := center_fbinds v; size_fbinds := size_fbinds v |}.

Definition set__anim_alpha (x : Q) (v : ModalView) : ModalView :=
  {| uid := uid v; auto_dismiss := auto_dismiss v; _anim := _anim v;
     _anim_alpha := x; _anim_duration := _anim_duration v;
     _window := _window v; _is_open := _is_open v;
     _touch_started_inside := _touch_started_inside v;
     center := center v; size := size v;
     center_fbinds := center_fbinds v; size_fbinds := size_fbinds v |}.

Definition set__window (x : option window_ref) (v : ModalView) : ModalView :=
  {| uid := uid v; auto_dismiss := auto_dismiss v; _anim := _anim v;
     _anim_alpha := _anim_alpha v; _anim_duration := _anim_duration v;
     _window := x; _is_open := _is_open v;
     _touch_started_inside := _touch_started_inside v;
     center := center v; size := size v;
     center_fbinds := center_fbinds v; size_fbinds := size_fbinds v |}.

Definition set__is_open (x : bool) (v : ModalView) : ModalView :=
  {| uid := uid v; auto_dismiss := auto_dismiss v; _anim := _anim v;
     _anim_alpha := _anim_alpha v; _anim_duration := _anim_duration v;
     _window := _window v; _is_open := x;
     _touch_started_inside := _touch_started_inside v;
     center := center v; size := size v;
     center_fbinds := center_fbinds v; size_fbinds := size_fbinds v |}.

Definition set__touch_started_inside (x : option bool) (v : ModalView)
  : ModalView :=
  {| uid := uid v; auto_dismiss := auto_dismiss v; _anim := _anim v;
     _anim_alpha := _anim_alpha v; _anim_duration := _anim_duration v;
     _window := _window v; _is_open := _is_open v;
     _touch_started_inside := x;
     center := center v; size := size v;
     center_fbinds := center_fbinds v; size_fbinds := size_fbinds v |}.

Definition set_center (x : point) (v : ModalView) : ModalView :=
  {| uid := uid v; auto_dismiss := auto_dismiss v; _anim := _anim v;
     _anim_alpha := _anim_alpha v; _anim_duration := _anim_duration v;
     _window := _window v; _is_open := _is_open v;
     _touch_started_inside := _touch_started_inside v;
     center := x; size := size v;
     center_fbinds := center_fbinds v; size_fbinds := size_fbinds v |}.

Definition add_center_fbind (v : ModalView) : ModalView :=
  {| uid := uid v; auto_dismiss := auto_dismiss v; _anim := _anim v;
     _anim_alpha := _anim_alpha v; _anim_duration := _anim_duration v;
     _window := _window v; _is_open := _is_open v;
     _touch_started_inside := _touch_started_inside v;
     center := center v; size := size v;
     center_fbinds := S (center_fbinds v); size_fbinds := size_fbinds v |}.

Definition add_size_fbind (v : ModalView) : ModalView :=
  {| uid := uid v; auto_dismiss := auto_dismiss v; _anim := _anim v;
     _anim_alpha := _anim_alpha v; _anim_duration := _anim_duration v;
     _window := _window v; _is_open := _is_open v;
     _touch_started_inside := _touch_started_inside v;
     center := center v; size := size v;
     center_fbinds := center_fbinds v; size_fbinds := S (size_fbinds v) |}.

(** ** The window *)

(** Python's [list.remove]: drops the first occurrence. *)
Fixpoint list_remove (u : wid) (l : list wid) : list wid :=
  match l with
  | [] => []
  | x :: l' => if Nat.eqb x u then l' else x :: list_remove u l'
  end.

Definition remove_all (u : wid) (l : list wid) : list wid :=
  List.filter (fun x => negb (Nat.eqb x u)) l.

Definition memb (u : wid) (l : list wid) : bool :=
  existsb (Nat.eqb u) l.

Definition set_children (f : list wid -> list wid) (W : WindowBase)
  : WindowBase :=
  {| children := f (children W); on_resize_subs := on_resize_subs W;
     on_keyboard_subs := on_keyboard_subs W; win_center := win_center W |}.

Definition set_subs (f : list wid -> list wid) (W : WindowBase)
  : WindowBase :=
  {| children := children W; on_resize_subs := f (on_resize_subs W);
     on_keyboard_subs := f (on_keyboard_subs W); win_center := win_center W |}.

Definition set_win_center (c : point) (W : WindowBase) : WindowBase :=
  {| children := children W; on_resize_subs := on_resize_subs W;
     on_keyboard_subs := on_keyboard_subs W; win_center := c |}.

(** Modelled from the spec: [Window.add_widget(self)] inserts the widget
    into the root's collection, where it becomes the topmost one. *)
Definition Window_add_widget (u : wid) : M unit :=
  modify_Window (set_children (cons u)) ;; log (AddWidget u).

(** Modelled from the spec: [Window.remove_widget(self)] detaches the
    widget from the root's collection. *)
Definition Window_remove_widget (u : wid) : M unit :=
  modify_Window (set_children (list_remove u)) ;; log (RemoveWidget u).

(** Modelled from the spec:
    [Window.bind(on_resize=self._align_center,
                 on_keyboard=self._handle_keyboard)]
    subscribes the view to the resize and keyboard notifications. *)
Definition Window_bind (u : wid) : M unit :=
  modify_Window (set_subs (fun l => l ++ [u])) ;; log (Bind u).

(** Modelled from the spec: [Window.unbind(on_resize=..., on_keyboard=...)]
    removes the view's callbacks from both notifications. *)
Definition Window_unbind (u : wid) : M unit :=
  modify_Window (set_subs (remove_all u)) ;; log (Unbind u).

(** ** The animation service *)

Definition set_running (b : bool) (a : Animation) : Animation :=
  {| to_anim_alpha := to_anim_alpha a; d := d a;
     on_complete := on_complete a; running := b |}.

Definition add_on_complete (c : completion) (a : Animation) : Animation :=
  {| to_anim_alpha := to_anim_alpha a; d := d a;
     on_complete := on_complete a ++ [c]; running := running a |}.

(** Modelled from the spec: [Animation(_anim_alpha=target, d=duration)]
    creates an animation that is not running yet. *)
Definition Animation_new (target duration : Q) : M handle :=
  anims ← get_animations;
  modify_animations (fun l => l ++ [ {| to_anim_alpha := target; d := duration;
                                        on_complete := []; running := false |} ]) ;;
  mret (length anims).

(** Modelled from the spec: [ani.bind(on_complete=callback)]. *)
Definition Animation_bind (h : handle) (c : completion) : M unit :=
  modify_animations (alter (add_on_complete c) h).

(** Modelled from the spec: [ani.start(self)]. *)
Definition Animation_start (h : handle) : M unit :=
  modify_animations (alter (set_running true) h) ;; log (AnimStart h).

(** ** Point containment *)

(** Modelled from the spec: [containsPoint] of the ContainerWidget base
    ([Widget.collide_point]): the closed rectangle of extent [size] around
    [center]; coordinates are doubled to stay in the integers. *)
Definition collide_point (v : ModalView) (p : point) : bool :=
  let '(cx, cy) := center v in
  let '(w, h) := size v in
  let '(x, y) := p in
  ((2 * cx - w <=? 2 * x) && (2 * x <=? 2 * cx + w) &&
   (2 * cy - h <=? 2 * y) && (2 * y <=? 2 * cy + h))%Z.

(** ** The methods of [ModalView] *)

Section Methods.

(** Modelled from the spec: the EventDispatcher.  [listeners name] are the
    callbacks bound to the event [name]; a callback reads the view and
    returns a truth value, and a dispatch reports whether any of them
    returned true.  The default handlers [on_pre_open], [on_open],
    [on_pre_dismiss] and [on_dismiss] of [ModalView] have an empty body and
    return [None]. *)
Variable listeners : string -> list (ModalView -> bool).

Definition dispatch (name : string) : M bool :=
  log (Dispatch name) ;;
  self ← get_self;
  mret (existsb (fun callback => callback self) (listeners name)).

(** [self._anim_alpha = value] *)
Definition assign__anim_alpha (value : Q) : M unit :=
  modify_self (set__anim_alpha value) ;; log (SetAlpha value).

(** [self.fbind('center', self._align_center)] and
    [self.fbind('size', self._align_center)] *)
Definition fbind_center : M unit := modify_self add_center_fbind.
Definition fbind_size : M unit := modify_self add_size_fbind.

Definition _real_remove_widget : M unit :=
  self ← get_self;
  if negb (_is_open self) then mret tt else
  match _window self with
  | None => raise AttributeError
  | Some TheWindow =>
      Window_remove_widget (uid self) ;;
      Window_unbind (uid self) ;;
      modify_self (set__is_open false) ;;
      modify_self (set__window None)
  end.

(** The callbacks bound to [on_complete] of an animation. *)
Definition run_completion (c : completion) : M unit :=
  match c with
  | LambdaDispatchOnOpen => _ ← dispatch "on_open"; mret tt
  | LambdaRealRemoveWidget => _real_remove_widget
  end.

Fixpoint run_completions (cs : list completion) : M unit :=
  match cs with
  | [] => mret tt
  | c :: cs' => run_completion c ;; run_completions cs'
  end.

(** Modelled from the spec: [ani.stop(self)] of the AnimationService
    ([kivy.animation.Animation.stop], not part of [modalview.py]).  The
    spec speaks of a cancellation; kivy's [stop], unlike its [cancel],
    signals [on_complete] when it ends an animation that is running on the
    widget, so the callbacks bound to it are called inside [stop], before
    [_clear_anim] resets [_anim].  It does not move [_anim_alpha] to the
    destination value.  On an animation that is not running it does
    nothing. *)
Definition Animation_stop (h : handle) : M unit :=
  log (AnimStop h) ;;
  anims ← get_animations;
  match anims !! h with
  | Some ani =>
      if running ani then
        modify_animations (alter (set_running false) h) ;;
        run_completions (on_complete ani)
      else mret tt
  | None => mret tt
  end.

Definition _clear_anim : M unit :=
  self ← get_self;
  match _anim self with
  | Some ani =>
      Animation_stop ani ;;
      modify_self (set__anim None)
  | None => mret tt
  end.

Definition open (kwargs : Kwargs) : M unit :=
  self ← get_self;
  if _is_open self then mret tt else
  _clear_anim ;;
  modify_self (set__window (Some TheWindow)) ;;
  modify_self (set__is_open true) ;;
  _ ← dispatch "on_pre_open";
  Window_add_widget (uid self) ;;
  Window_bind (uid self) ;;
  W ← get_Window;
  modify_self (set_center (win_center W)) ;;
  fbind_center ;;
  fbind_size ;;
  if kwargs_get (animation kwargs) true then
    self ← get_self;
    ani ← Animation_new 1 (_anim_duration self);
    modify_self (set__anim (Some ani)) ;;
    Animation_bind ani LambdaDispatchOnOpen ;;
    Animation_start ani
  else
    assign__anim_alpha 1 ;;
    _ ← dispatch "on_open";
    mret tt.

Definition dismiss (kwargs : Kwargs) : M unit :=
  _clear_anim ;;
  self ← get_self;
  if negb (_is_open self) then mret tt else
  _ ← dispatch "on_pre_dismiss";
  vetoed ← dispatch "on_dismiss";
  if vetoed && negb (kwargs_get (force kwargs) false) then mret tt else
  if kwargs_get (animation kwargs) true then
    self ← get_self;
    ani ← Animation_new 0 (_anim_duration self);
    modify_self (set__anim (Some ani)) ;;
    Animation_bind ani LambdaRealRemoveWidget ;;
    Animation_start ani
  else
    _real_remove_widget.

Definition _align_center : M unit :=
  self ← get_self;
  if _is_open self then
    match _window self with
    | None => raise AttributeError
    | Some TheWindow =>
        W ← get_Window;
        modify_self (set_center (win_center W))
    end
  else mret tt.

(** [super().on_touch_down(touch)] and its siblings: the default
    propagation of the gesture to the children of the view. *)
Definition super_on_touch (p : phase) (touch : Touch) : M unit :=
  log (Super p touch).

Definition on_motion : M pyret :=
  log SuperMotion ;;
  mret PyTrue.

Definition on_touch_down (touch : Touch) : M pyret :=
  self ← get_self;
  modify_self (set__touch_started_inside
                 (Some (collide_point self (pos touch)))) ;;
  self ← get_self;
  (if negb (auto_dismiss self)
      || bool_decide (_touch_started_inside self = Some true)
   then super_on_touch TouchDown touch
   else mret tt) ;;
  mret PyTrue.

Definition on_touch_move (touch : Touch) : M pyret :=
  self ← get_self;
  (if negb (auto_dismiss self)
      || bool_decide (_touch_started_inside self = Some true)
   then super_on_touch TouchMove touch
   else mret tt) ;;
  mret PyTrue.

Definition on_touch_up (touch : Touch) : M pyret :=
  self ← get_self;
  (if auto_dismiss self
      && bool_decide (_touch_started_inside self = Some false)
   then dismiss no_kwargs
   else super_on_touch TouchUp touch) ;;
  modify_self (set__touch_started_inside None) ;;
  mret PyTrue.

Definition _handle_keyboard (key : Z) : M pyret :=
  self ← get_self;
  if (key =? 27)%Z && auto_dismiss self then
    dismiss no_kwargs ;;
    mret PyTrue
  else mret PyNone.

(** ** The environment *)

(** Modelled from the spec: the AnimationService finishing a transition.
    A running animation reaches its destination value and then signals its
    completion, once; an animation that is not running does nothing. *)
Definition Animation_complete (h : handle) : M unit :=
  anims ← get_animations;
  match anims !! h with
  | Some ani =>
      if running ani then
        modify_animations (alter (set_running false) h) ;;
        assign__anim_alpha (to_anim_alpha ani) ;;
        log (AnimComplete h) ;;
        run_completions (on_complete ani)
      else mret tt
  | None => mret tt
  end.

(** Modelled from the spec: the window is resized; its center moves and the
    subscribers of the resize notification are called. *)
Definition Window_resize (c : point) : M unit :=
  modify_Window (set_win_center c) ;;
  self ← get_self;
  W ← get_Window;
  if memb (uid self) (on_resize_subs W) then _align_center else mret tt.

(** Modelled from the spec: the window delivers a key to the subscribers of
    the keyboard notification. *)
Definition Window_keyboard (key : Z) : M unit :=
  self ← get_self;
  W ← get_Window;
  if memb (uid self) (on_keyboard_subs W)
  then _ ← _handle_keyboard key; mret tt
  else mret tt.

(** Modelled from the spec: the window delivers a gesture phase to its
    widgets; the view, when attached, is the one that receives it. *)
Definition Window_touch (p : phase) (touch : Touch) : M unit :=
  self ← get_self;
  W ← get_Window;
  if memb (uid self) (children W) then
    match p with
    | TouchDown => _ ← on_touch_down touch; mret tt
    | TouchMove => _ ← on_touch_move touch; mret tt
    | TouchUp => _ ← on_touch_up touch; mret tt
    end
  else mret tt.

(** What can happen to a view: the application calls [open] or [dismiss],
    an animation finishes, the window is resized, or input arrives. *)
Inductive op : Type :=
| OpOpen (kwargs : Kwargs)
| OpDismiss (kwargs : Kwargs)
| OpAnimComplete (h : handle)
| OpResize (c : point)
| OpKey (key : Z)
| OpTouch (p : phase) (touch : Touch).

Definition step (o : op) : M unit :=
  match o with
  | OpOpen kwargs => open kwargs
  | OpDismiss kwargs => dismiss kwargs
  | OpAnimComplete h => Animation_complete h
  | OpResize c => Window_resize c
  | OpKey key => Window_keyboard key
  | OpTouch p touch => Window_touch p touch
  end.

Fixpoint run (ops : list op) : M unit :=
  match ops with
  | [] => mret tt
  | o :: ops' => step o ;; run ops'
  end.

(** A freshly constructed [ModalView] in front of a window that does not
    know the view:
    the class-level defaults [_anim = None], [_anim_alpha = 0],
    [_anim_duration = .1], [_is_open = False],
    [_touch_started_inside = None]. *)
Definition new_view (u : wid) (auto : bool) (sz : point) : ModalView :=
  {| uid := u; auto_dismiss := auto; _anim := None; _anim_alpha := 0;
     _anim_duration := 1 # 10; _window := None; _is_open := false;
     _touch_started_inside := None; center := (0, 0)%Z; size := sz;
     center_fbinds := 0; size_fbinds := 0 |}.

Definition init (v : ModalView) (W : WindowBase) : World :=
  {| view := v; Window := W; animations := []; trace := [] |}.

(** ** Invariants *)

(** The view is attached: it refers to the window, is one of its widgets
    and is subscribed to its notifications, each exactly once. *)
Definition attached (w : World) : Prop :=
  _window (view w) = Some TheWindow /\
  count_occ Nat.eq_dec (children (Window w)) (uid (view w)) = 1 /\
  count_occ Nat.eq_dec (on_resize_subs (Window w)) (uid (view w)) = 1 /\
  count_occ Nat.eq_dec (on_keyboard_subs (Window w)) (uid (view w)) = 1.

Definition detached (w : World) : Prop :=
  _window (view w) = None /\
  ~ In (uid (view w)) (children (Window w)) /\
  ~ In (uid (view w)) (on_resize_subs (Window w)) /\
  ~ In (uid (view w)) (on_keyboard_subs (Window w)).

(** At most one animation is active, and it is the one [_anim] holds. *)
Definition single_animation (w : World) : Prop :=
  forall (h : handle) (ani : Animation),
    animations w !! h = Some ani -> running ani = true ->
    _anim (view w) = Some h.

(** A running animation carries exactly one of the two callbacks; a
    fade-out only runs while the view is open. *)
Definition animations_ok (w : World) : Prop :=
  forall (h : handle) (ani : Animation),
    animations w !! h = Some ani -> running ani = true ->
    (on_complete ani = [LambdaDispatchOnOpen] \/
     on_complete ani = [LambdaRealRemoveWidget]) /\
    _is_open (view w) = true.

(** No animation is running. *)
Definition all_idle (l : list Animation) : Prop :=
  Forall (fun ani => running ani = false) l.

(** The spec's invariant on the view and the window: an open view is
    attached (and centered on the window), a closed one is detached. *)
Definition placed (w : World) : Prop :=
  if _is_open (view w)
  then attached w /\ center (view w) = win_center (Window w)
  else detached w.

Definition wf (w : World) : Prop :=
  placed w /\ single_animation w /\ animations_ok w.

(** A view that was never opened, in front of a window that does not know
    it. *)
Definition fresh (v : ModalView) (W : WindowBase) : Prop :=
  _is_open v = false /\ _window v = None /\ _anim v = None /\
  ~ In (uid v) (children W) /\
  ~ In (uid v) (on_resize_subs W) /\
  ~ In (uid v) (on_keyboard_subs W).

Definition reachable (w : World) : Prop :=
  exists (v : ModalView) (W : WindowBase) (ops : list op),
    fresh v W /\ run ops (init v W) = Ok tt w.

(** The [stop] call that [_clear_anim] makes, if any. *)
Definition stop_log (w : World) : list action :=
  match _anim (view w) with
  | Some ani => [AnimStop ani]
  | None => []
  end.

(** The animations after [_clear_anim]. *)
Definition stopped (w : World) : list Animation :=
  match _anim (view w) with
  | Some ani => alter (set_running false) ani (animations w)
  | None => animations w
  end.

(** A fade towards [target] is in flight under the handle [h], with the
    callback [c] waiting for its completion. *)
Definition fading (h : handle) (target : Q) (c : completion) (w : World)
  : Prop :=
  _anim (view w) = Some h /\
  animations w !! h =
    Some {| to_anim_alpha := target; d := _anim_duration (view w);
            on_complete := [c]; running := true |}.

(** The running animation that [_anim] holds, if there is one, and the
    callbacks bound to its [on_complete]. *)
Definition held (w : World) : option Animation :=
  match _anim (view w) with
  | Some h =>
      match animations w !! h with
      | Some ani => if running ani then Some ani else None
      | None => None
      end
  | None => None
  end.

Definition held_callbacks (w : World) : list completion :=
  match held w with
  | Some ani => on_complete ani
  | None => []
  end.

(** A fade-out is in flight: stopping the held animation calls
    [_real_remove_widget]. *)
Definition fade_out_in_flight (w : World) : Prop :=
  In LambdaRealRemoveWidget (held_callbacks w).

(** The dispatches of [on_open] made by the callbacks [cs]. *)
Fixpoint on_open_log (cs : list completion) : list action :=
  match cs with
  | [] => []
  | LambdaDispatchOnOpen :: cs' => Dispatch "on_open" :: on_open_log cs'
  | LambdaRealRemoveWidget :: cs' => on_open_log cs'
  end.

(** What [_clear_anim] logs when the stop removes nothing: the [stop] call
    and the dispatches of [on_open] of a fade-in that it ends. *)
Definition clear_log (w : World) : list action :=
  stop_log w ++ on_open_log (held_callbacks w).

(** An open view has its window: the condition under which
    [self._window.remove_widget] does not fail. *)
Definition window_ok (w : World) : Prop :=
  _is_open (view w) = true -> _window (view w) = Some TheWindow.

(** The world in which [stop] calls the callbacks of the held animation. *)
Definition halted (w : World) : World :=
  {| view := view w; Window := Window w; animations := stopped w;
     trace := trace w ++ stop_log w |}.

(** The world after [self._anim = None]. *)
Definition unheld (w : World) : World :=
  {| view := set__anim None (view w); Window := Window w;
     animations := animations w; trace := trace w |}.

(** The world right after [_clear_anim], when the stop removes nothing. *)
Definition cleared (w : World) : World :=
  {| view := set__anim None (view w); Window := Window w;
     animations := stopped w; trace := trace w ++ clear_log w |}.

(** The world in which [dismiss], called on a view that is still open
    after [_clear_anim], looks at the value returned by the dispatch of
    [on_dismiss]. *)
Definition asked (w : World) : World :=
  {| view := set__anim None (view w); Window := Window w;
     animations := stopped w;
     trace := trace w ++ clear_log w ++
              [Dispatch "on_pre_dismiss"; Dispatch "on_dismiss"] |}.

(** The value that dispatch returns to [dismiss]: whether some callback
    bound to [on_dismiss] returned true. *)
Definition vetoed (w : World) : bool :=
  existsb (fun callback => callback (set__anim None (view w)))
          (listeners "on_dismiss").

(** The world after a new animation towards [target] with the completion
    callback [c] has been created, stored in [_anim], and started. *)
Definition started (target : Q) (c : completion) (w : World) : World :=
  {| view := set__anim (Some (length (animations w))) (view w);
     Window := Window w;
     animations := animations w ++
       [ {| to_anim_alpha := target; d := _anim_duration (view w);
            on_complete := [c]; running := true |} ];
     trace := trace w ++ [AnimStart (length (animations w))] |}.

(** The world after the steps of [open] that attach a closed view:
    [_clear_anim] up to the two [fbind] calls. *)
Definition plugged (w : World) : World :=
  {| view :=
       add_size_fbind (add_center_fbind
         (set_center (win_center (Window w))
            (set__is_open true
               (set__window (Some TheWindow)
                  (set__anim None (view w))))));
     Window :=
       set_subs (fun l => l ++ [uid (view w)])
         (set_children (cons (uid (view w))) (Window w));
     animations := stopped w;
     trace := trace w ++ clear_log w ++
              [Dispatch "on_pre_open"; AddWidget (uid (view w));
               Bind (uid (view w))] |}.

(** The world after [self._anim_alpha = 1.; self.dispatch('on_open')]. *)
Definition shown (w : World) : World :=
  {| view := set__anim_alpha 1 (view w); Window := Window w;
     animations := animations w;
     trace := trace w ++ [SetAlpha 1; Dispatch "on_open"] |}.

(** The world after the four statements of [_real_remove_widget] that
    follow its guard. *)
Definition unplugged (w : World) : World :=
  {| view := set__window None (set__is_open false (view w));
     Window :=
       set_subs (remove_all (uid (view w)))
         (set_children (list_remove (uid (view w))) (Window w));
     animations := animations w;
     trace := trace w ++
              [RemoveWidget (uid (view w)); Unbind (uid (view w))] |}.

(** The world after [_clear_anim] has stopped a fade-out in flight: the
    callback of the fade-out has removed the view. *)
Definition cut_short (w : World) : World :=
  unheld (unplugged (halted w)).

(** The world after the dispatch of [on_pre_dismiss] and [on_dismiss]. *)
Definition asking (w : World) : World :=
  {| view := view w; Window := Window w; animations := animations w;
     trace := trace w ++
              [Dispatch "on_pre_dismiss"; Dispatch "on_dismiss"] |}.

(** What [dismiss] does after [_clear_anim]. *)
Definition proceed (kwargs : Kwargs) (w : World) : result unit :=
  if negb (_is_open (view w)) then Ok tt w
  else if existsb (fun callback => callback (view w))
                  (listeners "on_dismiss")
          && negb (kwargs_get (force kwargs) false)
  then Ok tt (asking w)
  else if kwargs_get (animation kwargs) true
  then Ok tt (started 0 LambdaRealRemoveWidget (asking w))
  else _real_remove_widget (asking w).

(** The world in which the callbacks of the finished animation [h], which
    was driving [_anim_alpha] to [target], are called. *)
Definition finished (h : handle) (target : Q) (w : World) : World :=
  {| view := set__anim_alpha target (view w); Window := Window w;
     animations := alter (set_running false) h (animations w);
     trace := trace w ++ [SetAlpha target; AnimComplete h] |}.

(** The world with one more entry in the log. *)
Definition logged (a : action) (w : World) : World :=
  {| view := view w; Window := Window w; animations := animations w;
     trace := trace w ++ [a] |}.

(** The world after [self._touch_started_inside = x]. *)
Definition touched (x : option bool) (w : World) : World :=
  {| view := set__touch_started_inside x (view w); Window := Window w;
     animations := animations w; trace := trace w |}.

(** The world after [self.center = self._window.center]. *)
Definition aligned (w : World) : World :=
  {| view := set_center (win_center (Window w)) (view w);
     Window := Window w; animations := animations w; trace := trace w |}.

(** The world after the window's center has moved to [c]. *)
Definition resized (c : point) (w : World) : World :=
  {| view := view w; Window := set_win_center c (Window w);
     animations := animations w; trace := trace w |}.

(** How many [_align_center] callbacks are registered on the view's own
    [center] and [size]. *)
Definition fbinds (v : ModalView) : nat * nat :=
  (center_fbinds v, size_fbinds v).

(** The names of the events dispatched in a log, in order. *)
Fixpoint dispatched (t : list action) : list string :=
  match t with
  | [] => []
  | Dispatch name :: t' => name :: dispatched t'
  | _ :: t' => dispatched t'
  end.

(** The calls of [super().on_touch_...] in a log, in order. *)
Fixpoint forwarded (t : list action) : list (phase * Touch) :=
  match t with
  | [] => []
  | Super p touch :: t' => (p, touch) :: forwarded t'
  | _ :: t' => forwarded t'
  end.

(** Whether an operation is a call of [open] that finds the view closed. *)
Definition opens (o : op) (w : World) : bool :=
  match o with
  | OpOpen _ => negb (_is_open (view w))
  | _ => false
  end.

(** The view is closed and gone from the window. *)
Definition removed (w : World) : Prop :=
  _is_open (view w) = false /\ detached w.

End Methods.

(** ** Sample worlds *)

Definition after (r : result unit) (dflt : World) : World :=
  match r with
  | Ok _ w => w
  | Raise _ => dflt
  end.

(** No callback is bound to any event. *)
Definition quiet : string -> list (ModalView -> bool) := fun _ => [].

(** One callback bound to [on_dismiss] that always returns [True]. *)
Definition vetoing : string -> list (ModalView -> bool) := fun name =>
  if String.eqb name "on_dismiss" then [fun _ => true] else [].

(** Callbacks that return [True] bound to every event but [on_dismiss]. *)
Definition nagging : string -> list (ModalView -> bool) := fun name =>
  if String.eqb name "on_dismiss" then [] else [fun _ => true].

Definition sample_Window : WindowBase :=
  {| children := [7]; on_resize_subs := []; on_keyboard_subs := [3];
     win_center := (400, 300)%Z |}.

Definition sample_view : ModalView := new_view 1 true (100, 100)%Z.

Definition sample_closed : World := init sample_view sample_Window.

Definition immediate : Kwargs := {| animation := Some false; force := None |}.
Definition forced : Kwargs := {| animation := Some false; force := Some true |}.
Definition forced_fade : Kwargs := {| animation := None; force := Some true |}.

(** After [view.open(animation=False)]. *)
Definition sample_open : World :=
  Eval vm_compute in after (open quiet immediate sample_closed) sample_closed.

(** After [view.open()]: the fade-in is in flight. *)
Definition sample_opening : World :=
  Eval vm_compute in after (open quiet no_kwargs sample_closed) sample_closed.

(** After [view.open(animation=False); view.dismiss()]: the fade-out is in
    flight. *)
Definition sample_dismissing : World :=
  Eval vm_compute in after (dismiss quiet no_kwargs sample_open) sample_open.

(** After the fade-out has finished: closed again, [_anim] still holds the
    finished animation. *)
Definition sample_reclosed : World :=
  Eval vm_compute in
    after (Animation_complete quiet 0 sample_dismissing) sample_dismissing.

(** After [view.dismiss()] on that closed view. *)
Definition sample_redismissed : World :=
  Eval vm_compute in
    after (dismiss quiet no_kwargs sample_reclosed) sample_reclosed.

(** After [view.open(animation=False); view.dismiss(animation=False)]. *)
Definition sample_removed : World :=
  Eval vm_compute in after (dismiss quiet immediate sample_open) sample_open.

(** After [view.open(); view.dismiss()]: the fade-in was stopped and the
    fade-out is in flight. *)
Definition sample_interrupted : World :=
  Eval vm_compute in
    after (dismiss quiet no_kwargs sample_opening) sample_opening.

(** After [view.open(animation=False); view.dismiss(); view.dismiss()]:
    the second call stopped the fade-out. *)
Definition sample_cut_short : World :=
  Eval vm_compute in
    after (dismiss quiet no_kwargs sample_dismissing) sample_dismissing.

(** An open view with [auto_dismiss=False]. *)
Definition sample_sticky : World :=
  Eval vm_compute in
    after (open quiet immediate
             (init (new_view 1 false (100, 100)%Z) sample_Window))
          sample_closed.

Definition outside : Touch := {| pos := (0, 0)%Z |}.
Definition inside : Touch := {| pos := (400, 300)%Z |}.

(** ** Properties *)

Section Properties.

Variable listeners : string -> list (ModalView -> bool).

(** Symbolic execution of a method: unfold the monad and the primitives,
    keep list operations folded. *)
Ltac exec :=
  cbv beta iota delta
    [Modal.open Modal.dismiss _clear_anim Modal._real_remove_widget
     _align_center Modal.dispatch assign__anim_alpha fbind_center fbind_size
     super_on_touch on_motion on_touch_down on_touch_move Modal.on_touch_up
     Modal._handle_keyboard
     Modal.Animation_complete Window_resize Window_keyboard Window_touch
     Window_add_widget Window_remove_widget Window_bind Window_unbind
     Animation_new Animation_bind Animation_start
     mbind mret M_bind M_ret raise get_self modify_self get_Window
     modify_Window get_animations modify_animations log
     kwargs_get no_kwargs animation force];
  cbn [view Window animations trace
       uid auto_dismiss _anim _anim_alpha _anim_duration _window _is_open
       _touch_started_inside center size center_fbinds size_fbinds
       set__anim set__anim_alpha set__window set__is_open
       set__touch_started_inside set_center add_center_fbind add_size_fbind
       children on_resize_subs on_keyboard_subs win_center
       set_children set_subs set_win_center negb andb orb].

Ltac fields :=
  cbn [view Window animations trace
       uid auto_dismiss _anim _anim_alpha _anim_duration _window _is_open
       _touch_started_inside center size center_fbinds size_fbinds
       set__anim set__anim_alpha set__window set__is_open
       set__touch_started_inside set_center add_center_fbind add_size_fbind
       children on_resize_subs on_keyboard_subs win_center
       set_children set_subs set_win_center] in *.

Ltac open_world w :=
  let v := fresh "v" in
  destruct w as [v ? ? ?]; destruct v; cbn in *; subst.

Lemma alter_fresh (f : Animation -> Animation) (l : list Animation)
    (a : Animation) :
  alter f (length l) (l ++ [a]) = l ++ [f a].
Proof.
  replace (length l) with (length l + 0) by lia.
  rewrite alter_app_r. reflexivity.
Qed.

Lemma alter_idle (h : nat) (l : list Animation) :
  (forall ani, l !! h = Some ani -> running ani = false) ->
  alter (set_running false) h l = l.
Proof.
  intros Hidle. apply list_eq. intros i.
  destruct (decide (h = i)) as [<-|Hne].
  - rewrite list_lookup_alter_eq.
    destruct (l !! h) as [ani|] eqn:Hh; [|reflexivity].
    specialize (Hidle ani eq_refl). destruct ani. cbn in *. subst. reflexivity.
  - apply list_lookup_alter_ne, Hne.
Qed.

Lemma set__anim_same (v : ModalView) :
  _anim v = None -> set__anim None v = v.
Proof. destruct v; cbn; intros ->; reflexivity. Qed.

Lemma _real_remove_widget_eq (w : World) :
  _is_open (view w) = true ->
  _window (view w) = Some TheWindow ->
  _real_remove_widget w = Ok tt (unplugged w).
Proof.
  intros Hopen Hwin. unfold unplugged. open_world w. exec.
  rewrite <- !app_assoc. reflexivity.
Qed.

Lemma _real_remove_widget_closed (w : World) :
  _is_open (view w) = false -> _real_remove_widget w = Ok tt w.
Proof. intros Hclosed. open_world w. exec. reflexivity. Qed.

Lemma _real_remove_widget_raise (w : World) :
  _is_open (view w) = true ->
  _window (view w) = None ->
  _real_remove_widget w = Raise AttributeError.
Proof. intros Hopen Hwin. open_world w. exec. reflexivity. Qed.

Lemma run_completions_cons (c : completion) (cs : list completion)
    (w : World) :
  run_completions listeners (c :: cs) w =
    match c with
    | LambdaDispatchOnOpen =>
        run_completions listeners cs (logged (Dispatch "on_open") w)
    | LambdaRealRemoveWidget =>
        match _real_remove_widget w with
        | Ok _ w' => run_completions listeners cs w'
        | Raise e => Raise e
        end
    end.
Proof.
  destruct c; cbn [run_completions run_completion]; cbv [mbind M_bind].
  - destruct w. reflexivity.
  - destruct (_real_remove_widget w) as [[] w'|]; reflexivity.
Qed.

(** *** [_clear_anim] and the callbacks that [stop] calls *)

(** When the view is closed, or no callback removes it, the callbacks only
    dispatch [on_open]. *)
Lemma run_completions_calm (cs : list completion) (w : World) :
  _is_open (view w) = false \/ ~ In LambdaRealRemoveWidget cs ->
  run_completions listeners cs w =
    Ok tt {| view := view w; Window := Window w; animations := animations w;
             trace := trace w ++ on_open_log cs |}.
Proof.
  revert w. induction cs as [|c cs IH]; intros w Hcalm.
  - cbn. rewrite app_nil_r. destruct w. reflexivity.
  - rewrite run_completions_cons. destruct c.
    + rewrite IH.
      * cbn [logged view Window animations trace on_open_log].
        rewrite <- app_assoc. reflexivity.
      * cbn [logged view]. destruct Hcalm as [Hclosed | Hnone];
          [left; exact Hclosed | right].
        intros Hin. apply Hnone. right. exact Hin.
    + destruct Hcalm as [Hclosed | Hnone].
      * rewrite _real_remove_widget_closed by exact Hclosed.
        rewrite IH by (left; exact Hclosed). reflexivity.
      * exfalso. apply Hnone. left. reflexivity.
Qed.

Lemma Animation_stop_eq (h : handle) (w : World) :
  Animation_stop listeners h w =
    match animations w !! h with
    | Some ani =>
        if running ani
        then run_completions listeners (on_complete ani)
               {| view := view w; Window := Window w;
                  animations := alter (set_running false) h (animations w);
                  trace := trace w ++ [AnimStop h] |}
        else Ok tt (logged (AnimStop h) w)
    | None => Ok tt (logged (AnimStop h) w)
    end.
Proof.
  unfold Animation_stop.
  cbv [mbind M_bind log get_animations modify_animations mret M_ret].
  cbn [animations]. destruct (animations w !! h) as [ani|]; [|reflexivity].
  destruct (running ani); reflexivity.
Qed.

Lemma _clear_anim_eq (w : World) :
  _clear_anim listeners w =
    match run_completions listeners (held_callbacks w) (halted w) with
    | Ok _ w' => Ok tt (unheld w')
    | Raise e => Raise e
    end.
Proof.
  unfold _clear_anim, held_callbacks, held, halted, unheld, stopped, stop_log.
  cbv [mbind M_bind get_self].
  destruct (_anim (view w)) as [h|] eqn:Hanim.
  - rewrite Animation_stop_eq. unfold handle in *.
    destruct (animations w !! h) as [ani|] eqn:Hh;
      [destruct (running ani) eqn:Hrun |].
    + destruct (run_completions _ _ _) as [[] w'|]; reflexivity.
    + cbn [run_completions]. rewrite alter_idle by (intros; congruence).
      reflexivity.
    + cbn [run_completions]. rewrite alter_idle by (intros; congruence).
      reflexivity.
  - cbn [run_completions]. cbv [mret M_ret]. cbn [view Window animations trace].
    rewrite app_nil_r, set__anim_same by exact Hanim.
    destruct w. reflexivity.
Qed.

Lemma _clear_anim_calm (w : World) :
  _is_open (view w) = false \/ ~ fade_out_in_flight w ->
  _clear_anim listeners w = Ok tt (cleared w).
Proof.
  intros Hcalm. rewrite _clear_anim_eq.
  rewrite run_completions_calm by exact Hcalm.
  unfold unheld, cleared, clear_log, halted. cbn [view Window animations trace].
  rewrite <- app_assoc. reflexivity.
Qed.

Lemma _clear_anim_cut (w : World) :
  _is_open (view w) = true ->
  _window (view w) = Some TheWindow ->
  held_callbacks w = [LambdaRealRemoveWidget] ->
  _clear_anim listeners w = Ok tt (cut_short w).
Proof.
  intros Hopen Hwin Hheld. rewrite _clear_anim_eq, Hheld.
  rewrite run_completions_cons.
  rewrite (_real_remove_widget_eq (halted w)) by assumption.
  reflexivity.
Qed.

Lemma held_none (w : World) : _anim (view w) = None -> held_callbacks w = [].
Proof. unfold held_callbacks, held. intros ->. reflexivity. Qed.

Lemma cleared_same (w : World) : _anim (view w) = None -> cleared w = w.
Proof.
  intros H. unfold cleared, clear_log, stopped, stop_log.
  rewrite (held_none w H), H. cbn [on_open_log app]. rewrite app_nil_r.
  rewrite set__anim_same by exact H. destruct w; reflexivity.
Qed.

Lemma dismiss_eq (kwargs : Kwargs) (w : World) :
  dismiss listeners kwargs w =
    match _clear_anim listeners w with
    | Ok _ w' => proceed listeners kwargs w'
    | Raise e => Raise e
    end.
Proof.
  unfold dismiss. cbv [mbind M_bind].
  destruct (_clear_anim listeners w) as [[] w'|]; [|reflexivity].
  unfold proceed, asking, started. destruct w' as [[] ? ? ?]. exec.
  destruct _is_open0; [|reflexivity]. cbn [negb].
  destruct (existsb _ _ && _); [rewrite <- !app_assoc; reflexivity |].
  destruct kwargs as [[[]|] ?]; exec;
    rewrite ?alter_fresh; cbn; rewrite <- ?app_assoc; reflexivity.
Qed.

Lemma asking_cleared (w : World) : asking (cleared w) = asked w.
Proof.
  unfold asking, cleared, asked. cbn [view Window animations trace].
  rewrite <- app_assoc. reflexivity.
Qed.

Lemma cleared_open (w : World) :
  _is_open (view (cleared w)) = _is_open (view w).
Proof. destruct w as [[] ? ? ?]. reflexivity. Qed.

Lemma dismiss_closed_eq (kwargs : Kwargs) (w : World) :
  _is_open (view w) = false ->
  dismiss listeners kwargs w = Ok tt (cleared w).
Proof.
  intros Hclosed. rewrite dismiss_eq, _clear_anim_calm by (left; exact Hclosed).
  unfold proceed. rewrite cleared_open, Hclosed. reflexivity.
Qed.

Lemma dismiss_open_eq (kwargs : Kwargs) (w : World) :
  _is_open (view w) = true ->
  ~ fade_out_in_flight w ->
  dismiss listeners kwargs w =
    if vetoed listeners w && negb (kwargs_get (force kwargs) false)
    then Ok tt (asked w)
    else if kwargs_get (animation kwargs) true
         then Ok tt (started 0 LambdaRealRemoveWidget (asked w))
         else _real_remove_widget (asked w).
Proof.
  intros Hopen Hcalm.
  rewrite dismiss_eq, _clear_anim_calm by (right; exact Hcalm).
  unfold proceed. rewrite cleared_open, Hopen, asking_cleared. reflexivity.
Qed.

Lemma cut_short_view (w : World) :
  view (cut_short w) =
    set__anim None (set__window None (set__is_open false (view w))).
Proof. reflexivity. Qed.

Lemma dismiss_cut_eq (kwargs : Kwargs) (w : World) :
  _is_open (view w) = true ->
  _window (view w) = Some TheWindow ->
  held_callbacks w = [LambdaRealRemoveWidget] ->
  dismiss listeners kwargs w = Ok tt (cut_short w).
Proof.
  intros Hopen Hwin Hheld. rewrite dismiss_eq, _clear_anim_cut by assumption.
  unfold proceed. rewrite cut_short_view. destruct (view w). reflexivity.
Qed.

Lemma open_closed_eq (kwargs : Kwargs) (w : World) :
  _is_open (view w) = false ->
  open listeners kwargs w =
    if kwargs_get (animation kwargs) true
    then Ok tt (started 1 LambdaDispatchOnOpen (plugged w))
    else Ok tt (shown (plugged w)).
Proof.
  intros Hclosed. unfold Modal.open.
  cbv [mbind M_bind get_self].
  rewrite Hclosed, _clear_anim_calm by (left; exact Hclosed).
  unfold started, shown, plugged, cleared. open_world w. exec.
  destruct kwargs as [[[]|] ?]; exec;
    rewrite ?alter_fresh; cbn; rewrite <- !app_assoc; reflexivity.
Qed.

Lemma Animation_complete_eq (h : handle) (ani : Animation) (w : World) :
  animations w !! h = Some ani ->
  running ani = true ->
  Animation_complete listeners h w =
    run_completions listeners (on_complete ani)
      (finished h (to_anim_alpha ani) w).
Proof.
  intros Hh Hrun. unfold Animation_complete, finished.
  cbv [mbind M_bind get_animations]. rewrite Hh, Hrun.
  destruct w. exec. rewrite <- !app_assoc. reflexivity.
Qed.

Lemma Animation_complete_idle (h : handle) (w : World) :
  (forall ani, animations w !! h = Some ani -> running ani = false) ->
  Animation_complete listeners h w = Ok tt w.
Proof.
  intros Hidle. unfold Animation_complete.
  cbv [mbind M_bind get_animations].
  destruct (animations w !! h) as [ani|] eqn:Hh; [|reflexivity].
  rewrite (Hidle ani eq_refl). reflexivity.
Qed.

Lemma open_open_eq (kwargs : Kwargs) (w : World) :
  _is_open (view w) = true ->
  open listeners kwargs w = Ok tt w.
Proof.
  intros Hopen. cbv [Modal.open mbind M_bind get_self mret M_ret].
  rewrite Hopen. reflexivity.
Qed.

(** *** The invariant holds in every reachable world *)

Lemma stopped_idle (w : World) :
  single_animation w -> all_idle (stopped w).
Proof.
  intros Hsingle. apply Forall_lookup. intros i ani Hi.
  destruct (running ani) eqn:Hrun; [exfalso | reflexivity].
  unfold stopped in Hi. destruct (_anim (view w)) as [h|] eqn:Hanim.
  - destruct (decide (h = i)) as [->|Hne].
    + rewrite list_lookup_alter_eq in Hi.
      destruct (animations w !! i); cbn in Hi; [|discriminate].
      injection Hi as <-. cbn in Hrun. discriminate.
    + rewrite list_lookup_alter_ne in Hi by exact Hne.
      specialize (Hsingle i ani Hi Hrun). congruence.
  - specialize (Hsingle i ani Hi Hrun). congruence.
Qed.

Lemma idle_invariants (w : World) :
  all_idle (animations w) -> single_animation w /\ animations_ok w.
Proof.
  intros Hidle. split; intros h ani Hh Hrun;
    pose proof (proj1 (Forall_lookup _ _) Hidle h ani Hh) as Hoff;
    cbn in Hoff; congruence.
Qed.

Lemma started_invariants (target : Q) (c : completion) (w : World) :
  all_idle (animations w) ->
  _is_open (view w) = true ->
  (c = LambdaDispatchOnOpen \/ c = LambdaRealRemoveWidget) ->
  single_animation (started target c w) /\ animations_ok (started target c w).
Proof.
  intros Hidle Hopen Hc.
  assert (Hnew : forall h ani,
             animations (started target c w) !! h = Some ani ->
             running ani = true ->
             h = length (animations w) /\ on_complete ani = [c]).
  { intros h ani Hh Hrun. cbn in Hh.
    apply lookup_snoc_Some in Hh as [[Hlt Hh]|[-> <-]].
    - pose proof (proj1 (Forall_lookup _ _) Hidle h ani Hh) as Hoff.
      cbn in Hoff. congruence.
    - split; reflexivity. }
  split; intros h ani Hh Hrun; destruct (Hnew h ani Hh Hrun) as [-> Hcb].
  - destruct w as [[] ? ? ?]. reflexivity.
  - split.
    + rewrite Hcb. destruct Hc as [->| ->]; [left | right]; reflexivity.
    + destruct w as [[] ? ? ?]. exact Hopen.
Qed.

Lemma finished_idle (h : handle) (target : Q) (w : World) :
  single_animation w ->
  _anim (view w) = Some h ->
  all_idle (animations (finished h target w)).
Proof.
  intros Hsingle Hanim.
  pose proof (stopped_idle w Hsingle) as Hidle.
  unfold stopped in Hidle. rewrite Hanim in Hidle. exact Hidle.
Qed.

Lemma count_occ_snoc (l : list wid) (u : wid) :
  ~ In u l -> count_occ Nat.eq_dec (l ++ [u]) u = 1.
Proof.
  unfold wid in *. intros Hnot. rewrite count_occ_app.
  apply (count_occ_not_In Nat.eq_dec) in Hnot. rewrite Hnot. cbn.
  destruct (Nat.eq_dec u u); [reflexivity | contradiction].
Qed.

Lemma count_occ_cons_fresh (l : list wid) (u : wid) :
  ~ In u l -> count_occ Nat.eq_dec (u :: l) u = 1.
Proof.
  unfold wid in *. intros Hnot.
  rewrite count_occ_cons_eq by reflexivity.
  apply (count_occ_not_In Nat.eq_dec) in Hnot. rewrite Hnot. reflexivity.
Qed.

Lemma list_remove_once (l : list wid) (u : wid) :
  count_occ Nat.eq_dec l u = 1 -> ~ In u (list_remove u l).
Proof.
  unfold wid in *. induction l as [|x l IH]; cbn; [discriminate |].
  destruct (Nat.eq_dec x u) as [->|Hne].
  - rewrite Nat.eqb_refl. intros Hcount.
    apply (count_occ_not_In Nat.eq_dec). lia.
  - apply Nat.eqb_neq in Hne as Hneb. rewrite Hneb.
    intros Hcount [Heq|Hin]; [contradiction | exact (IH Hcount Hin)].
Qed.

Lemma remove_all_gone (l : list wid) (u : wid) : ~ In u (remove_all u l).
Proof.
  unfold remove_all. intros Hin. apply filter_In in Hin as [_ Hne].
  rewrite Nat.eqb_refl in Hne. discriminate.
Qed.

Lemma memb_In (u : wid) (l : list wid) : memb u l = true <-> In u l.
Proof.
  unfold memb. rewrite existsb_exists. split.
  - intros [x [Hin Heq]]. apply Nat.eqb_eq in Heq. subst. exact Hin.
  - intros Hin. exists u. split; [exact Hin | apply Nat.eqb_refl].
Qed.

Lemma count_occ_one_In (l : list wid) (u : wid) :
  count_occ Nat.eq_dec l u = 1 -> In u l.
Proof. intros H. apply (count_occ_In Nat.eq_dec). lia. Qed.

Lemma placed_plugged (w : World) :
  _is_open (view w) = false -> detached w -> placed (plugged w).
Proof.
  intros Hclosed (Hwin & Hc & Hr & Hk).
  unfold placed, attached, detached, plugged in *.
  destruct w as [[] [] ? ?]. fields.
  repeat split; try apply count_occ_snoc; try assumption.
  apply count_occ_cons_fresh. exact Hc.
Qed.

Lemma placed_unplugged (w : World) :
  _is_open (view w) = true -> attached w -> placed (unplugged w).
Proof.
  intros Hopen (Hwin & Hc & Hr & Hk).
  unfold placed, attached, detached, unplugged in *.
  destruct w as [[] [] ? ?]. fields.
  repeat split; try apply remove_all_gone.
  apply list_remove_once. exact Hc.
Qed.

Ltac by_fields w :=
  unfold wf, placed, attached, detached, single_animation, animations_ok,
    cleared, asked, asking, started, shown, finished, logged, touched,
    aligned, resized, halted, unheld in *;
  destruct w as [[] [] ? ?]; fields.

Lemma placed_asked (w : World) : placed w -> placed (asked w).
Proof. by_fields w. exact id. Qed.

Lemma placed_cleared (w : World) : placed w -> placed (cleared w).
Proof. by_fields w. exact id. Qed.

Lemma placed_started (target : Q) (c : completion) (w : World) :
  placed w -> placed (started target c w).
Proof. by_fields w. exact id. Qed.

Lemma placed_shown (w : World) : placed w -> placed (shown w).
Proof. by_fields w. exact id. Qed.

Lemma placed_finished (h : handle) (target : Q) (w : World) :
  placed w -> placed (finished h target w).
Proof. by_fields w. exact id. Qed.

Lemma wf_logged (a : action) (w : World) : wf w -> wf (logged a w).
Proof. by_fields w. exact id. Qed.

Lemma wf_touched (x : option bool) (w : World) : wf w -> wf (touched x w).
Proof. by_fields w. exact id. Qed.

Lemma wf_cleared (w : World) : wf w -> wf (cleared w).
Proof.
  intros (Hplaced & Hsingle & _). split.
  - apply placed_cleared, Hplaced.
  - apply idle_invariants, stopped_idle, Hsingle.
Qed.

Lemma wf_asked (w : World) : wf w -> wf (asked w).
Proof.
  intros (Hplaced & Hsingle & _). split.
  - apply placed_asked, Hplaced.
  - apply idle_invariants, stopped_idle, Hsingle.
Qed.

Lemma wf_idle_placed (w : World) :
  placed w -> all_idle (animations w) -> wf w.
Proof. intros Hplaced Hidle. split; [exact Hplaced | apply idle_invariants, Hidle]. Qed.

Lemma wf_started (target : Q) (c : completion) (w : World) :
  placed w -> all_idle (animations w) -> _is_open (view w) = true ->
  (c = LambdaDispatchOnOpen \/ c = LambdaRealRemoveWidget) ->
  wf (started target c w).
Proof.
  intros Hplaced Hidle Hopen Hc. split.
  - apply placed_started, Hplaced.
  - apply started_invariants; assumption.
Qed.

Lemma placed_open (w : World) :
  placed w -> _is_open (view w) = true -> attached w.
Proof. unfold placed. intros Hplaced Hopen. rewrite Hopen in Hplaced. tauto. Qed.

Lemma placed_closed (w : World) :
  placed w -> _is_open (view w) = false -> detached w.
Proof. unfold placed. intros Hplaced Hclosed. rewrite Hclosed in Hplaced. tauto. Qed.

Lemma placed_unheld (w : World) : placed w -> placed (unheld w).
Proof. by_fields w. exact id. Qed.

Lemma attached_halted (w : World) : attached w -> attached (halted w).
Proof. by_fields w. exact id. Qed.

Lemma wf_held_cases (w : World) :
  wf w ->
  held_callbacks w = [] \/
  (_is_open (view w) = true /\
   (held_callbacks w = [LambdaDispatchOnOpen] \/
    held_callbacks w = [LambdaRealRemoveWidget])).
Proof.
  intros (_ & _ & Hok). unfold held_callbacks, held.
  destruct (_anim (view w)) as [h|]; [|left; reflexivity].
  destruct (animations w !! h) as [ani|] eqn:Hh; [|left; reflexivity].
  destruct (running ani) eqn:Hrun; [|left; reflexivity].
  right. destruct (Hok h ani Hh Hrun) as [Hcb Hopen]. tauto.
Qed.

Lemma calm_when_no_fade_out (w : World) :
  held_callbacks w = [] \/ held_callbacks w = [LambdaDispatchOnOpen] ->
  ~ fade_out_in_flight w.
Proof.
  unfold fade_out_in_flight. intros [-> | ->]; cbn; intuition discriminate.
Qed.

Lemma wf_cut_short (w : World) :
  wf w -> _is_open (view w) = true -> wf (cut_short w).
Proof.
  intros (Hplaced & Hsingle & _) Hopen. apply wf_idle_placed.
  - unfold cut_short. apply placed_unheld, placed_unplugged.
    + exact Hopen.
    + apply attached_halted, placed_open; assumption.
  - exact (stopped_idle w Hsingle).
Qed.

Lemma open_wf (kwargs : Kwargs) (w : World) :
  wf w -> exists w', open listeners kwargs w = Ok tt w' /\ wf w'.
Proof.
  intros Hwf. destruct (_is_open (view w)) eqn:Hopen.
  - exists w. split; [apply open_open_eq, Hopen | exact Hwf].
  - destruct Hwf as (Hplaced & Hsingle & _).
    pose proof (placed_plugged w Hopen (placed_closed w Hplaced Hopen)) as Hp.
    pose proof (stopped_idle w Hsingle) as Hidle.
    rewrite open_closed_eq by exact Hopen.
    destruct (kwargs_get (animation kwargs) true); eexists; (split; [reflexivity |]).
    + apply wf_started; [exact Hp | exact Hidle | reflexivity | left; reflexivity].
    + apply wf_idle_placed; [apply placed_shown, Hp | exact Hidle].
Qed.

Lemma asked_open (w : World) :
  _is_open (view (asked w)) = _is_open (view w).
Proof. destruct w as [[] ? ? ?]. reflexivity. Qed.

Lemma dismiss_wf (kwargs : Kwargs) (w : World) :
  wf w -> exists w', dismiss listeners kwargs w = Ok tt w' /\ wf w'.
Proof.
  intros Hwf. destruct (_is_open (view w)) eqn:Hopen.
  - pose proof (wf_asked w Hwf) as (Hplaced & _).
    pose proof (stopped_idle w (proj1 (proj2 Hwf))) as Hidle.
    pose proof (asked_open w) as Hasked. rewrite Hopen in Hasked.
    assert (Hcases : ~ fade_out_in_flight w \/
                     held_callbacks w = [LambdaRealRemoveWidget]).
    { destruct (wf_held_cases w Hwf) as [Hnone | (_ & [Hin | Hout])].
      - left. apply calm_when_no_fade_out. left. exact Hnone.
      - left. apply calm_when_no_fade_out. right. exact Hin.
      - right. exact Hout. }
    destruct Hcases as [Hcalm | Hout].
    + rewrite dismiss_open_eq by assumption. destruct (_ && _).
      * eexists. split; [reflexivity | apply wf_asked, Hwf].
      * destruct (kwargs_get (animation kwargs) true).
        -- eexists. split; [reflexivity |].
           apply wf_started; [exact Hplaced | exact Hidle | exact Hasked
                             | right; reflexivity].
        -- pose proof (placed_open _ Hplaced Hasked) as Hatt.
           rewrite _real_remove_widget_eq by (exact Hasked || apply Hatt).
           eexists. split; [reflexivity |].
           apply wf_idle_placed;
             [apply placed_unplugged; assumption | exact Hidle].
    + pose proof (placed_open w (proj1 Hwf) Hopen) as Hatt.
      rewrite dismiss_cut_eq by (assumption || apply Hatt).
      eexists. split; [reflexivity | apply wf_cut_short; assumption].
  - rewrite dismiss_closed_eq by exact Hopen.
    eexists. split; [reflexivity | apply wf_cleared, Hwf].
Qed.

Lemma on_open_completion_eq (w : World) :
  run_completions listeners [LambdaDispatchOnOpen] w =
    Ok tt (logged (Dispatch "on_open") w).
Proof. destruct w. reflexivity. Qed.

Lemma removal_completion_eq (w : World) :
  _is_open (view w) = true ->
  _window (view w) = Some TheWindow ->
  run_completions listeners [LambdaRealRemoveWidget] w = Ok tt (unplugged w).
Proof.
  intros Hopen Hwin. cbn [run_completions run_completion].
  cbv [mbind M_bind]. rewrite _real_remove_widget_eq by assumption.
  reflexivity.
Qed.

Lemma finished_view (h : handle) (target : Q) (w : World) :
  _is_open (view (finished h target w)) = _is_open (view w) /\
  _window (view (finished h target w)) = _window (view w).
Proof. destruct w as [[] ? ? ?]. split; reflexivity. Qed.

Lemma Animation_complete_wf (h : handle) (w : World) :
  wf w -> exists w', Animation_complete listeners h w = Ok tt w' /\ wf w'.
Proof.
  intros Hwf.
  destruct (animations w !! h) as [ani|] eqn:Hh;
    [destruct (running ani) eqn:Hrun |].
  - destruct Hwf as (Hplaced & Hsingle & Hok).
    pose proof (Hsingle h ani Hh Hrun) as Hanim.
    destruct (Hok h ani Hh Hrun) as [Hcb Hopen].
    pose proof (finished_idle h (to_anim_alpha ani) w Hsingle Hanim) as Hidle.
    pose proof (placed_finished h (to_anim_alpha ani) w Hplaced) as Hp.
    destruct (finished_view h (to_anim_alpha ani) w) as [Hfo Hfw].
    rewrite (Animation_complete_eq h ani w Hh Hrun).
    destruct Hcb as [-> | ->].
    + rewrite on_open_completion_eq. eexists. split; [reflexivity |].
      apply wf_logged, wf_idle_placed; assumption.
    + assert (Hatt : attached (finished h (to_anim_alpha ani) w)).
      { apply placed_open; [exact Hp | congruence]. }
      rewrite removal_completion_eq by (congruence || apply Hatt).
      eexists. split; [reflexivity |].
      apply wf_idle_placed; [|exact Hidle].
      apply placed_unplugged; [congruence | exact Hatt].
  - exists w. split; [|exact Hwf]. apply Animation_complete_idle.
    intros ani' Hh'. congruence.
  - exists w. split; [|exact Hwf]. apply Animation_complete_idle.
    intros ani' Hh'. congruence.
Qed.

Lemma on_touch_down_eq (touch : Touch) (w : World) :
  on_touch_down touch w =
    Ok PyTrue
      (let inside := collide_point (view w) (pos touch) in
       if negb (auto_dismiss (view w)) || inside
       then logged (Super TouchDown touch) (touched (Some inside) w)
       else touched (Some inside) w).
Proof.
  destruct w as [[] ? ? ?]. exec. unfold logged, touched. fields.
  destruct (collide_point _ _), auto_dismiss0; reflexivity.
Qed.

Lemma on_touch_move_eq (touch : Touch) (w : World) :
  on_touch_move touch w =
    Ok PyTrue
      (if negb (auto_dismiss (view w))
          || bool_decide (_touch_started_inside (view w) = Some true)
       then logged (Super TouchMove touch) w
       else w).
Proof.
  destruct w as [[] ? ? ?]. exec. unfold logged. fields.
  destruct (negb auto_dismiss0 || _); reflexivity.
Qed.

Lemma on_touch_up_eq (touch : Touch) (w : World) :
  on_touch_up listeners touch w =
    if auto_dismiss (view w)
       && bool_decide (_touch_started_inside (view w) = Some false)
    then match dismiss listeners no_kwargs w with
         | Ok _ w' => Ok PyTrue (touched None w')
         | Raise e => Raise e
         end
    else Ok PyTrue (touched None (logged (Super TouchUp touch) w)).
Proof.
  unfold Modal.on_touch_up. cbv [mbind M_bind get_self].
  destruct (auto_dismiss (view w) && _).
  - destruct (dismiss listeners no_kwargs w) as [[] w'|]; reflexivity.
  - reflexivity.
Qed.

Lemma _handle_keyboard_eq (key : Z) (w : World) :
  _handle_keyboard listeners key w =
    if (key =? 27)%Z && auto_dismiss (view w)
    then match dismiss listeners no_kwargs w with
         | Ok _ w' => Ok PyTrue w'
         | Raise e => Raise e
         end
    else Ok PyNone w.
Proof.
  unfold Modal._handle_keyboard. cbv [mbind M_bind get_self].
  destruct ((key =? 27)%Z && _).
  - destruct (dismiss listeners no_kwargs w) as [[] w'|]; reflexivity.
  - reflexivity.
Qed.

Lemma _align_center_open (w : World) :
  _is_open (view w) = true ->
  _window (view w) = Some TheWindow ->
  _align_center w = Ok tt (aligned w).
Proof. intros Hopen Hwin. unfold aligned. open_world w. exec. reflexivity. Qed.

Lemma _align_center_closed (w : World) :
  _is_open (view w) = false -> _align_center w = Ok tt w.
Proof. intros Hclosed. open_world w. exec. reflexivity. Qed.

Lemma wf_aligned (w : World) :
  wf w -> _is_open (view w) = true -> wf (aligned w).
Proof.
  by_fields w. intros (Hplaced & Hrest) Hopen. subst.
  split; [|exact Hrest]. split; [apply Hplaced | reflexivity].
Qed.

Lemma Window_resize_wf (c : point) (w : World) :
  wf w -> exists w', Window_resize c w = Ok tt w' /\ wf w'.
Proof.
  intros Hwf. pose proof Hwf as (Hplaced & Hsingle & Hok).
  unfold Window_resize. cbv [mbind M_bind modify_Window get_self get_Window].
  cbn [view Window]. destruct (_is_open (view w)) eqn:Hopen.
  - pose proof (placed_open w Hplaced Hopen) as (Hwin & Hc & Hr & Hk).
    assert (Hsub : memb (uid (view w))
                     (on_resize_subs (set_win_center c (Window w))) = true).
    { apply memb_In. destruct (Window w). cbn. apply count_occ_one_In, Hr. }
    rewrite Hsub. rewrite _align_center_open by assumption.
    eexists. split; [reflexivity |].
    clear Hsub. by_fields w. subst.
    split; [split; [tauto | reflexivity] | tauto].
  - pose proof (placed_closed w Hplaced Hopen) as (Hwin & Hc & Hr & Hk).
    assert (Hsub : memb (uid (view w))
                     (on_resize_subs (set_win_center c (Window w))) = false).
    { apply not_true_is_false. intros Hin. apply memb_In in Hin.
      destruct (Window w). cbn in Hin. contradiction. }
    rewrite Hsub. eexists. split; [reflexivity |].
    clear Hsub. by_fields w. subst. tauto.
Qed.

Lemma Window_keyboard_wf (key : Z) (w : World) :
  wf w -> exists w', Window_keyboard listeners key w = Ok tt w' /\ wf w'.
Proof.
  intros Hwf. unfold Window_keyboard. cbv [mbind M_bind get_self get_Window].
  destruct (memb _ _); [|exists w; split; [reflexivity | exact Hwf]].
  rewrite _handle_keyboard_eq. destruct (_ && _).
  - destruct (dismiss_wf no_kwargs w Hwf) as (w' & -> & Hwf').
    exists w'. split; [reflexivity | exact Hwf'].
  - exists w. split; [reflexivity | exact Hwf].
Qed.

Lemma Window_touch_wf (p : phase) (touch : Touch) (w : World) :
  wf w -> exists w', Window_touch listeners p touch w = Ok tt w' /\ wf w'.
Proof.
  intros Hwf. unfold Window_touch. cbv [mbind M_bind get_self get_Window].
  destruct (memb _ _); [|exists w; split; [reflexivity | exact Hwf]].
  destruct p.
  - rewrite on_touch_down_eq. eexists. split; [reflexivity |].
    cbv zeta. destruct (_ || _); [apply wf_logged |]; apply wf_touched, Hwf.
  - rewrite on_touch_move_eq. eexists. split; [reflexivity |].
    destruct (_ || _); [apply wf_logged |]; exact Hwf.
  - rewrite on_touch_up_eq. destruct (_ && _).
    + destruct (dismiss_wf no_kwargs w Hwf) as (w' & -> & Hwf').
      eexists. split; [reflexivity | apply wf_touched, Hwf'].
    + eexists. split; [reflexivity | apply wf_touched, wf_logged, Hwf].
Qed.

Lemma step_wf (o : op) (w : World) :
  wf w -> exists w', step listeners o w = Ok tt w' /\ wf w'.
Proof.
  destruct o; cbn [step].
  - apply open_wf.
  - apply dismiss_wf.
  - apply Animation_complete_wf.
  - apply Window_resize_wf.
  - apply Window_keyboard_wf.
  - apply Window_touch_wf.
Qed.

Lemma run_wf (ops : list op) (w : World) :
  wf w -> exists w', run listeners ops w = Ok tt w' /\ wf w'.
Proof.
  revert w. induction ops as [|o ops IH]; intros w Hwf; cbn [run].
  - exists w. split; [reflexivity | exact Hwf].
  - destruct (step_wf o w Hwf) as (w1 & Hstep & Hwf1).
    destruct (IH w1 Hwf1) as (w2 & Hrun & Hwf2).
    exists w2. split; [|exact Hwf2].
    cbv [mbind M_bind]. rewrite Hstep. exact Hrun.
Qed.

Lemma wf_init (v : ModalView) (W : WindowBase) : fresh v W -> wf (init v W).
Proof.
  intros (Hclosed & Hwin & Hanim & Hc & Hr & Hk).
  unfold wf, placed, detached, single_animation, animations_ok, init.
  fields. rewrite Hclosed.
  split; [tauto | split; intros h ani Hh; rewrite lookup_nil in Hh; discriminate].
Qed.

Lemma reachable_wf (w : World) : reachable listeners w -> wf w.
Proof.
  intros (v & W & ops & Hfresh & Hrun).
  destruct (run_wf ops (init v W) (wf_init v W Hfresh)) as (w' & Hrun' & Hwf).
  rewrite Hrun in Hrun'. injection Hrun' as <-. exact Hwf.
Qed.

(** *** The claims *)

(** *** The claims *)

Lemma stop_log_only_stops (w : World) (a : action) :
  In a (stop_log w) -> exists h, a = AnimStop h.
Proof.
  unfold stop_log. destruct (_anim (view w)) as [h|]; cbn; [|tauto].
  intros [<-|[]]. exists h. reflexivity.
Qed.

Lemma dispatched_app (t1 t2 : list action) :
  dispatched (t1 ++ t2) = dispatched t1 ++ dispatched t2.
Proof.
  induction t1 as [|a t1 IH]; [reflexivity |].
  destruct a; cbn [app dispatched]; rewrite IH; reflexivity.
Qed.

Lemma forwarded_app (t1 t2 : list action) :
  forwarded (t1 ++ t2) = forwarded t1 ++ forwarded t2.
Proof.
  induction t1 as [|a t1 IH]; [reflexivity |].
  destruct a; cbn [app forwarded]; rewrite IH; reflexivity.
Qed.

Lemma forwarded_none (t : list action) :
  (forall p touch, ~ In (Super p touch) t) -> forwarded t = [].
Proof.
  induction t as [|a t IH]; intros Hnone; [reflexivity |].
  destruct a; cbn [forwarded];
    try (apply IH; intros p' touch' Hin; apply (Hnone p' touch');
         right; exact Hin).
  exfalso. apply (Hnone p t0). left. reflexivity.
Qed.

Lemma dispatched_stop_log (w : World) : dispatched (stop_log w) = [].
Proof. unfold stop_log. destruct (_anim (view w)); reflexivity. Qed.

Lemma window_ok_logged (a : action) (w : World) :
  window_ok w -> window_ok (logged a w).
Proof. unfold window_ok. destruct w as [[] ? ? ?]. exact id. Qed.

Lemma window_ok_touched (x : option bool) (w : World) :
  window_ok w -> window_ok (touched x w).
Proof. unfold window_ok. destruct w as [[] ? ? ?]. exact id. Qed.

Lemma window_ok_halted (w : World) : window_ok w -> window_ok (halted w).
Proof. unfold window_ok. destruct w as [[] ? ? ?]. exact id. Qed.

Lemma window_ok_attached (w : World) : attached w -> window_ok w.
Proof. intros (Hwin & _) _. exact Hwin. Qed.

Lemma wf_window_ok (w : World) : wf w -> window_ok w.
Proof.
  intros (Hplaced & _) Hopen. apply (placed_open w Hplaced Hopen).
Qed.

(** Under [window_ok] the callbacks do not fail, and they never forward a
    touch. *)
Lemma run_completions_total (cs : list completion) (w : World) :
  window_ok w ->
  exists w' rest,
    run_completions listeners cs w = Ok tt w' /\
    trace w' = trace w ++ rest /\
    (forall p t, ~ In (Super p t) rest) /\
    window_ok w'.
Proof.
  revert w. induction cs as [|c cs IH]; intros w Hok.
  - exists w, []. rewrite app_nil_r. repeat split; [intros p t [] | exact Hok].
  - rewrite run_completions_cons. destruct c.
    + destruct (IH _ (window_ok_logged (Dispatch "on_open") w Hok))
        as (w' & rest & Hrun & Htrace & Hrest & Hok').
      exists w', (Dispatch "on_open" :: rest).
      split; [exact Hrun |]. split.
      { rewrite Htrace. cbn [logged trace]. rewrite <- app_assoc. reflexivity. }
      split; [|exact Hok'].
      intros p t [Hin | Hin]; [discriminate | exact (Hrest p t Hin)].
    + destruct (_is_open (view w)) eqn:Hopen.
      * rewrite _real_remove_widget_eq by (exact Hopen || exact (Hok Hopen)).
        assert (Hok1 : window_ok (unplugged w)).
        { unfold window_ok. destruct w as [[] ? ? ?]. cbn. discriminate. }
        destruct (IH _ Hok1) as (w' & rest & Hrun & Htrace & Hrest & Hok').
        exists w', (RemoveWidget (uid (view w)) :: Unbind (uid (view w))
                      :: rest).
        split; [exact Hrun |]. split.
        { rewrite Htrace. cbn [unplugged trace]. rewrite <- app_assoc.
          reflexivity. }
        split; [|exact Hok'].
        intros p t [Hin | [Hin | Hin]];
          [discriminate | discriminate | exact (Hrest p t Hin)].
      * rewrite _real_remove_widget_closed by exact Hopen. apply IH, Hok.
Qed.

Lemma dismiss_default_ok (w : World) :
  window_ok w ->
  exists w' rest,
    dismiss listeners no_kwargs w = Ok tt w' /\
    trace w' = trace w ++ rest /\
    forall p t, ~ In (Super p t) rest.
Proof.
  intros Hok.
  assert (Hstop : forall p t, ~ In (Super p t) (stop_log w)).
  { intros p t Hin. apply stop_log_only_stops in Hin as [h Hh]. discriminate. }
  destruct (run_completions_total (held_callbacks w) (halted w)
              (window_ok_halted w Hok))
    as (x & rest & Hrun & Htrace & Hrest & _).
  assert (Hpre : forall p t, ~ In (Super p t) (stop_log w ++ rest)).
  { intros p t Hin. apply in_app_or in Hin as [Hin | Hin];
      [exact (Hstop p t Hin) | exact (Hrest p t Hin)]. }
  cbn [halted trace] in Htrace. rewrite <- app_assoc in Htrace.
  rewrite dismiss_eq, _clear_anim_eq, Hrun. unfold proceed.
  cbn [kwargs_get no_kwargs animation force unheld view].
  destruct (negb _).
  - exists (unheld x), (stop_log w ++ rest).
    split; [reflexivity |]. split; [exact Htrace | exact Hpre].
  - destruct (_ && _).
    + exists (asking (unheld x)),
        ((stop_log w ++ rest) ++
         [Dispatch "on_pre_dismiss"; Dispatch "on_dismiss"]).
      split; [reflexivity |]. split.
      { cbn [asking unheld trace]. rewrite Htrace, <- !app_assoc.
        reflexivity. }
      intros p t Hin. apply in_app_or in Hin as [Hin | Hin];
        [exact (Hpre p t Hin) |]. cbn in Hin. intuition discriminate.
    + exists (started 0 LambdaRealRemoveWidget (asking (unheld x))),
        ((stop_log w ++ rest) ++
         [Dispatch "on_pre_dismiss"; Dispatch "on_dismiss";
          AnimStart (length (animations x))]).
      split; [reflexivity |]. split.
      { cbn [started asking unheld trace animations].
        rewrite Htrace, <- !app_assoc. reflexivity. }
      intros p t Hin. apply in_app_or in Hin as [Hin | Hin];
        [exact (Hpre p t Hin) |]. cbn in Hin. intuition discriminate.
Qed.

Lemma stopped_length (w : World) :
  length (stopped w) = length (animations w).
Proof.
  unfold stopped. destruct (_anim (view w)); [apply length_alter | reflexivity].
Qed.

Lemma vetoed_Exists (w : World) :
  vetoed listeners w = true <->
  Exists (fun callback => callback (set__anim None (view w)) = true)
         (listeners "on_dismiss").
Proof.
  unfold vetoed. rewrite existsb_exists, List.Exists_exists. reflexivity.
Qed.

Lemma attached_asked (w : World) : attached w -> attached (asked w).
Proof. by_fields w. exact id. Qed.

Lemma attached_started (target : Q) (c : completion) (w : World) :
  attached w -> attached (started target c w).
Proof. by_fields w. exact id. Qed.

Lemma attached_finished (h : handle) (target : Q) (w : World) :
  attached w -> attached (finished h target w).
Proof. by_fields w. exact id. Qed.

Lemma started_open (target : Q) (c : completion) (w : World) :
  _is_open (view (started target c w)) = _is_open (view w).
Proof. destruct w as [[] ? ? ?]. reflexivity. Qed.

Lemma removed_unplugged (w : World) :
  _is_open (view w) = true -> attached w -> removed (unplugged w).
Proof.
  intros Hopen Hatt. pose proof (placed_unplugged w Hopen Hatt) as Hp.
  unfold removed, placed in *. destruct w as [[] ? ? ?]. cbn in *.
  split; [reflexivity | exact Hp].
Qed.

Lemma fading_started (target : Q) (c : completion) (w : World) :
  fading (length (animations w)) target c (started target c w).
Proof.
  unfold fading, started. destruct w as [[] ? ? ?]. fields.
  split; [reflexivity |]. apply list_lookup_middle. reflexivity.
Qed.

Lemma fade_out_completion (h : handle) (w : World) :
  fading h 0 LambdaRealRemoveWidget w ->
  _is_open (view w) = true ->
  attached w ->
  Animation_complete listeners h w = Ok tt (unplugged (finished h 0 w)) /\
  removed (unplugged (finished h 0 w)) /\
  trace (unplugged (finished h 0 w)) =
    trace w ++ [SetAlpha 0; AnimComplete h;
                RemoveWidget (uid (view w)); Unbind (uid (view w))].
Proof.
  intros [Hanim Hh] Hopen Hatt.
  destruct (finished_view h 0 w) as [Hfo Hfw].
  pose proof (attached_finished h 0 w Hatt) as Hfa.
  split; [|split].
  - rewrite (Animation_complete_eq h _ w Hh) by reflexivity.
    cbn [on_complete to_anim_alpha].
    apply removal_completion_eq; [congruence | apply Hfa].
  - apply removed_unplugged; [congruence | exact Hfa].
  - destruct w as [[] ? ? ?]. cbn. rewrite <- !app_assoc. reflexivity.
Qed.

Lemma fade_in_completion (h : handle) (w : World) :
  fading h 1 LambdaDispatchOnOpen w ->
  Animation_complete listeners h w =
    Ok tt (logged (Dispatch "on_open") (finished h 1 w)) /\
  trace (logged (Dispatch "on_open") (finished h 1 w)) =
    trace w ++ [SetAlpha 1; AnimComplete h; Dispatch "on_open"].
Proof.
  intros [Hanim Hh]. split.
  - rewrite (Animation_complete_eq h _ w Hh) by reflexivity.
    cbn [on_complete to_anim_alpha]. apply on_open_completion_eq.
  - destruct w as [[] ? ? ?]. cbn. rewrite <- !app_assoc. reflexivity.
Qed.

Lemma fading_held (h : handle) (target : Q) (c : completion) (w : World) :
  fading h target c w ->
  held_callbacks w = [c] /\ stop_log w = [AnimStop h].
Proof.
  intros [Hanim Hh]. unfold held_callbacks, held, stop_log.
  rewrite Hanim, Hh. split; reflexivity.
Qed.

Lemma no_animation_is_calm (w : World) :
  _anim (view w) = None -> ~ fade_out_in_flight w.
Proof.
  intros H. apply calm_when_no_fade_out. left. apply held_none, H.
Qed.

Lemma removed_cut_short (w : World) :
  _is_open (view w) = true ->
  attached w ->
  removed (cut_short w) /\
  trace (cut_short w) =
    trace w ++ stop_log w ++
    [RemoveWidget (uid (view w)); Unbind (uid (view w))].
Proof.
  intros Hopen Hatt. split.
  - pose proof (removed_unplugged (halted w) Hopen (attached_halted w Hatt))
      as [Hclosed Hdet].
    unfold removed, detached, cut_short in *.
    destruct w as [[] [] ? ?]. cbn in *. tauto.
  - cbn. rewrite <- app_assoc. reflexivity.
Qed.

(** The three ways in which [dismiss] ends on an open, attached view that
    is still open after [_clear_anim]. *)
Lemma dismiss_open_cases (kwargs : Kwargs) (w : World) :
  _is_open (view w) = true ->
  attached w ->
  ~ fade_out_in_flight w ->
  (vetoed listeners w = true /\ kwargs_get (force kwargs) false = false /\
   dismiss listeners kwargs w = Ok tt (asked w)) \/
  ((vetoed listeners w = false \/ kwargs_get (force kwargs) false = true) /\
   kwargs_get (animation kwargs) true = true /\
   dismiss listeners kwargs w =
     Ok tt (started 0 LambdaRealRemoveWidget (asked w))) \/
  ((vetoed listeners w = false \/ kwargs_get (force kwargs) false = true) /\
   kwargs_get (animation kwargs) true = false /\
   dismiss listeners kwargs w = Ok tt (unplugged (asked w))).
Proof.
  intros Hopen Hatt Hcalm. rewrite dismiss_open_eq by assumption.
  pose proof (asked_open w) as Hao. rewrite Hopen in Hao.
  pose proof (attached_asked w Hatt) as Haa.
  rewrite (_real_remove_widget_eq (asked w)) by (exact Hao || apply Haa).
  destruct (vetoed listeners w), (kwargs_get (force kwargs) false),
    (kwargs_get (animation kwargs) true); cbn; tauto.
Qed.

(** C3 (amended).  [dismiss()] on a closed view leaves the window and
    every field of the view untouched, except for the animation handle:
    [_clear_anim] runs before the guard, so a handle left in [_anim] has
    [stop] called on it and is reset to [None].  When [_anim] is already
    [None] nothing changes at all.  In a well-formed world the animation
    held by a closed view has finished, so the stop calls no callback: no
    event is dispatched and the animations are unchanged too. *)
Theorem dismiss_while_closed (kwargs : Kwargs) (w : World) :
  _is_open (view w) = false ->
  exists w',
    dismiss listeners kwargs w = Ok tt w' /\
    view w' = set__anim None (view w) /\
    Window w' = Window w /\
    trace w' = trace w ++ stop_log w ++ on_open_log (held_callbacks w) /\
    (forall name, ~ In (Dispatch name) (stop_log w)) /\
    animations w' = stopped w /\
    (_anim (view w) = None -> w' = w) /\
    (wf w ->
     trace w' = trace w ++ stop_log w /\
     animations w' = animations w).
Proof.
  intros Hclosed. exists (cleared w).
  split; [apply dismiss_closed_eq, Hclosed |].
  repeat split.
  - intros name Hin. apply stop_log_only_stops in Hin as [h Hh]. discriminate.
  - apply cleared_same.
  - destruct (wf_held_cases w H) as [Hnone | (Hopen & _)]; [|congruence].
    cbn [cleared trace]. unfold clear_log. rewrite Hnone.
    cbn [on_open_log]. rewrite app_nil_r. reflexivity.
  - destruct H as (_ & _ & Hok). cbn [cleared animations]. unfold stopped.
    destruct (_anim (view w)) as [h|]; [|reflexivity].
    apply alter_idle. intros ani Hh.
    destruct (running ani) eqn:Hrun; [|reflexivity].
    destruct (Hok h ani Hh Hrun) as [_ Hopen]. congruence.
Qed.

(** C4.  [open()] on a view that is already open returns at once: the
    world, that is the view's fields, the window's widget collection and
    subscriptions, the animations and the log of dispatched events, is
    exactly as it was. *)
Theorem open_while_open_is_noop (kwargs : Kwargs) (w : World) :
  _is_open (view w) = true ->
  open listeners kwargs w = Ok tt w.
Proof. apply open_open_eq. Qed.

(** C7.  Touch handling.  The press handler stores the point containment of
    the press position in [_touch_started_inside]; the release handler calls
    [dismiss()] instead of forwarding exactly when [auto_dismiss] is true and
    [_touch_started_inside] is [False], and forwards the release to the
    children otherwise; it then resets [_touch_started_inside] to [None]; a
    gesture pressed inside is forwarded in all three phases and dispatches
    nothing; and the three handlers return [True].  The call of [dismiss()]
    returns when an open view has its window ([window_ok]). *)
Theorem touch_gesture (press move release : Touch) (w : World) :
  (exists w',
     on_touch_down press w = Ok PyTrue w' /\
     _touch_started_inside (view w') =
       Some (collide_point (view w) (pos press))) /\
  (exists w', on_touch_move move w = Ok PyTrue w') /\
  (window_ok w ->
   auto_dismiss (view w) = true ->
   _touch_started_inside (view w) = Some false ->
   exists w1 rest,
     dismiss listeners no_kwargs w = Ok tt w1 /\
     on_touch_up listeners release w = Ok PyTrue (touched None w1) /\
     trace (touched None w1) = trace w ++ rest /\
     (forall p t, ~ In (Super p t) rest)) /\
  (auto_dismiss (view w) = false \/
   _touch_started_inside (view w) <> Some false ->
   on_touch_up listeners release w =
     Ok PyTrue (touched None (logged (Super TouchUp release) w))) /\
  (window_ok w ->
   exists w',
     on_touch_up listeners release w = Ok PyTrue w' /\
     _touch_started_inside (view w') = None) /\
  (collide_point (view w) (pos press) = true ->
   exists w1 w2 w3,
     on_touch_down press w = Ok PyTrue w1 /\
     on_touch_move move w1 = Ok PyTrue w2 /\
     on_touch_up listeners release w2 = Ok PyTrue w3 /\
     view w3 = set__touch_started_inside None (view w) /\
     Window w3 = Window w /\
     animations w3 = animations w /\
     trace w3 = trace w ++ [Super TouchDown press; Super TouchMove move;
                            Super TouchUp release]).
Proof.
  repeat apply conj.
  - rewrite on_touch_down_eq. eexists. split; [reflexivity |].
    cbv zeta. destruct w as [[] ? ? ?]. destruct (_ || _); reflexivity.
  - rewrite on_touch_move_eq. eexists. reflexivity.
  - intros Hok Hauto Hout.
    destruct (dismiss_default_ok w Hok)
      as (w1 & rest & Hdismiss & Htrace & Hrest).
    exists w1, rest. rewrite on_touch_up_eq.
    rewrite Hauto, Hout, Hdismiss. cbn. repeat split; assumption.
  - intros Hcase. rewrite on_touch_up_eq.
    destruct Hcase as [-> | Hne]; [reflexivity |].
    rewrite bool_decide_eq_false_2 by exact Hne.
    rewrite andb_false_r. reflexivity.
  - intros Hok.
    destruct (dismiss_default_ok w Hok) as (w1 & rest & Hdismiss & _).
    rewrite on_touch_up_eq. rewrite Hdismiss.
    destruct (_ && _); eexists; (split; [reflexivity |]);
      [destruct w1 as [[] ? ? ?] | destruct w as [[] ? ? ?]]; reflexivity.
  - intros Hinside.
    exists (logged (Super TouchDown press) (touched (Some true) w)).
    exists (logged (Super TouchMove move)
              (logged (Super TouchDown press) (touched (Some true) w))).
    exists (touched None
              (logged (Super TouchUp release)
                 (logged (Super TouchMove move)
                    (logged (Super TouchDown press)
                       (touched (Some true) w))))).
    split; [|split; [|split]].
    + rewrite on_touch_down_eq. cbv zeta.
      rewrite Hinside, orb_true_r. reflexivity.
    + rewrite on_touch_move_eq. unfold logged, touched.
      destruct w as [[] ? ? ?]. fields.
      rewrite bool_decide_eq_true_2 by reflexivity.
      rewrite orb_true_r. reflexivity.
    + rewrite on_touch_up_eq. unfold logged, touched.
      destruct w as [[] ? ? ?]. fields.
      rewrite bool_decide_eq_false_2 by discriminate.
      rewrite andb_false_r. reflexivity.
    + unfold logged, touched. destruct w as [[] ? ? ?]. fields.
      rewrite <- !app_assoc. repeat split; reflexivity.
Qed.

(** C8.  The keyboard handler.  On key code 27 with [auto_dismiss] true it
    calls [dismiss()] and returns [True]; on any other key code, or when
    [auto_dismiss] is false, it changes nothing and returns [None].  The
    call of [dismiss()] returns when an open view has its window
    ([window_ok]). *)
Theorem escape_key_dismisses (key : Z) (w : World) :
  (window_ok w -> key = 27%Z -> auto_dismiss (view w) = true ->
   exists w',
     dismiss listeners no_kwargs w = Ok tt w' /\
     _handle_keyboard listeners key w = Ok PyTrue w' /\
     truthy PyTrue = true) /\
  (key <> 27%Z \/ auto_dismiss (view w) = false ->
   _handle_keyboard listeners key w = Ok PyNone w /\
   truthy PyNone = false).
Proof.
  rewrite _handle_keyboard_eq. split.
  - intros Hok -> ->.
    destruct (dismiss_default_ok w Hok) as (w' & _ & Hdismiss & _).
    exists w'. rewrite Hdismiss. repeat split; reflexivity.
  - intros [Hkey | ->].
    + apply Z.eqb_neq in Hkey. rewrite Hkey. split; reflexivity.
    + rewrite andb_false_r. split; reflexivity.
Qed.

(** C1 (amended).  [dismiss()] on an open, attached view.  When no fade-out
    is in flight the events [on_pre_dismiss] and [on_dismiss] are
    dispatched, also under [force=True]; when a callback of [on_dismiss]
    returns true and [force] is false nothing else happens: the view is
    still open and still attached to the unchanged window; when [force] is
    true the dismissal goes on whatever the callbacks return: with
    animation the fade-out is started and its completion removes the view,
    without animation the view is removed at once.  When a fade-out is in
    flight, stopping it calls its callback: the view is removed at once and
    no event is dispatched, whatever [force] and the callbacks are. *)
Theorem dismiss_veto_and_force (kwargs : Kwargs) (w : World) :
  _is_open (view w) = true ->
  attached w ->
  (~ fade_out_in_flight w ->
   exists w' rest,
     dismiss listeners kwargs w = Ok tt w' /\
     trace w' = trace w ++ clear_log w ++
                [Dispatch "on_pre_dismiss"; Dispatch "on_dismiss"] ++ rest /\
     (forall name, ~ In (Dispatch name) rest) /\
     (Exists (fun callback => callback (set__anim None (view w)) = true)
             (listeners "on_dismiss") ->
      kwargs_get (force kwargs) false = false ->
      rest = [] /\ _is_open (view w') = true /\ attached w' /\
      Window w' = Window w) /\
     (kwargs_get (force kwargs) false = true ->
      if kwargs_get (animation kwargs) true
      then _is_open (view w') = true /\
           fading (length (animations w)) 0 LambdaRealRemoveWidget w' /\
           exists w'',
             Animation_complete listeners (length (animations w)) w'
               = Ok tt w'' /\
             removed w''
      else removed w')) /\
  (held_callbacks w = [LambdaRealRemoveWidget] ->
   exists w',
     dismiss listeners kwargs w = Ok tt w' /\
     removed w' /\
     trace w' = trace w ++ stop_log w ++
                [RemoveWidget (uid (view w)); Unbind (uid (view w))] /\
     dispatched (trace w') = dispatched (trace w)).
Proof.
  intros Hopen Hatt. split.
  - intros Hcalm.
    pose proof (asked_open w) as Hao. rewrite Hopen in Hao.
    pose proof (attached_asked w Hatt) as Haa.
    destruct (dismiss_open_cases kwargs w Hopen Hatt Hcalm)
      as [(Hveto & Hforce & ->) | [(Hgo & Hani & ->) | (Hgo & Hani & ->)]].
    + exists (asked w), []. split; [reflexivity |].
      split; [reflexivity |]. split; [intros name []|]. split.
      * intros _ _. repeat split; try assumption; apply Haa.
      * congruence.
    + exists (started 0 LambdaRealRemoveWidget (asked w)),
        [AnimStart (length (stopped w))].
      split; [reflexivity |]. split.
      { cbn [started asked trace animations]. rewrite <- !app_assoc.
        reflexivity. }
      split; [intros name [Hin|[]]; discriminate |]. split.
      * intros Hex Hforce. apply vetoed_Exists in Hex.
        destruct Hgo; congruence.
      * intros _. rewrite Hani.
        pose proof (fading_started 0 LambdaRealRemoveWidget (asked w))
          as Hfade.
        cbn [asked animations] in Hfade. rewrite stopped_length in Hfade.
        pose proof (started_open 0 LambdaRealRemoveWidget (asked w)) as Hso.
        rewrite Hao in Hso.
        split; [exact Hso |]. split; [exact Hfade |].
        destruct (fade_out_completion _ _ Hfade Hso
                    (attached_started _ _ _ Haa)) as (Hdone & Hrem & _).
        eexists. split; [exact Hdone | exact Hrem].
    + exists (unplugged (asked w)),
        [RemoveWidget (uid (view w)); Unbind (uid (view w))].
      split; [reflexivity |]. split.
      { cbn [unplugged asked trace view uid set__anim].
        rewrite <- !app_assoc. reflexivity. }
      split; [intros name [Hin|[Hin|[]]]; discriminate |]. split.
      * intros Hex Hforce. apply vetoed_Exists in Hex.
        destruct Hgo; congruence.
      * intros _. rewrite Hani. apply removed_unplugged; assumption.
  - intros Hout. exists (cut_short w).
    destruct (removed_cut_short w Hopen Hatt) as [Hrem Htrace].
    split; [apply dismiss_cut_eq; assumption || apply Hatt |].
    split; [exact Hrem |]. split; [exact Htrace |].
    rewrite Htrace, !dispatched_app, dispatched_stop_log. cbn.
    rewrite app_nil_r. reflexivity.
Qed.


Lemma plugged_facts (w : World) :
  _is_open (view (plugged w)) = true /\
  uid (view (plugged w)) = uid (view w) /\
  center (view (plugged w)) = win_center (Window (plugged w)) /\
  win_center (Window (plugged w)) = win_center (Window w) /\
  _anim_duration (view (plugged w)) = _anim_duration (view w).
Proof. destruct w as [[] [] ? ?]. repeat split; reflexivity. Qed.

(** C5 (amended).  Order of events.  [open()] on a closed view dispatches
    [on_pre_open] before it adds the view to the window; with animation
    [on_open] is not dispatched by the call but when the fade-in signals
    [on_complete]: at its end, after [_anim_alpha] has reached 1, or
    earlier, with [_anim_alpha] where it was, when [_clear_anim] stops the
    fade-in; without animation it is dispatched right after [_anim_alpha]
    is set to 1.  [dismiss()] on an open view with no fade-out in flight
    dispatches [on_pre_dismiss], then [on_dismiss] (whose result is the
    veto); only then is the fade-out started, and the view is removed when
    the fade-out signals [on_complete], at its end or earlier when
    [_clear_anim] stops it, or at once when there is no animation. *)
Theorem lifecycle_ordering (kwargs : Kwargs) (w : World) :
  let u := uid (view w) in
  let h := length (animations w) in
  (_is_open (view w) = false ->
   exists w',
     open listeners kwargs w = Ok tt w' /\
     if kwargs_get (animation kwargs) true
     then trace w' = trace w ++ clear_log w ++
                     [Dispatch "on_pre_open"; AddWidget u; Bind u;
                      AnimStart h] /\
          fading h 1 LambdaDispatchOnOpen w' /\
          (exists w'',
             Animation_complete listeners h w' = Ok tt w'' /\
             trace w'' = trace w' ++
                         [SetAlpha 1; AnimComplete h; Dispatch "on_open"]) /\
          (exists w'',
             _clear_anim listeners w' = Ok tt w'' /\
             trace w'' = trace w' ++ [AnimStop h; Dispatch "on_open"] /\
             _anim_alpha (view w'') = _anim_alpha (view w))
     else trace w' = trace w ++ clear_log w ++
                     [Dispatch "on_pre_open"; AddWidget u; Bind u;
                      SetAlpha 1; Dispatch "on_open"] /\
          _anim_alpha (view w') = 1%Q) /\
  (_is_open (view w) = true ->
   attached w ->
   ~ fade_out_in_flight w ->
   exists w',
     dismiss listeners kwargs w = Ok tt w' /\
     if vetoed listeners w && negb (kwargs_get (force kwargs) false)
     then trace w' = trace w ++ clear_log w ++
                     [Dispatch "on_pre_dismiss"; Dispatch "on_dismiss"] /\
          Window w' = Window w
     else if kwargs_get (animation kwargs) true
     then trace w' = trace w ++ clear_log w ++
                     [Dispatch "on_pre_dismiss"; Dispatch "on_dismiss";
                      AnimStart h] /\
          Window w' = Window w /\
          fading h 0 LambdaRealRemoveWidget w' /\
          (exists w'',
             Animation_complete listeners h w' = Ok tt w'' /\
             trace w'' = trace w' ++
                         [SetAlpha 0; AnimComplete h;
                          RemoveWidget u; Unbind u] /\
             removed w'') /\
          (exists w'',
             _clear_anim listeners w' = Ok tt w'' /\
             trace w'' = trace w' ++
                         [AnimStop h; RemoveWidget u; Unbind u] /\
             removed w'' /\
             _anim_alpha (view w'') = _anim_alpha (view w))
     else trace w' = trace w ++ clear_log w ++
                     [Dispatch "on_pre_dismiss"; Dispatch "on_dismiss";
                      RemoveWidget u; Unbind u] /\
          removed w').
Proof.
  cbv zeta. split.
  - intros Hclosed. rewrite open_closed_eq by exact Hclosed.
    destruct (plugged_facts w) as (Hpo & Hpu & _ & _ & Hpd).
    destruct (kwargs_get (animation kwargs) true); eexists;
      (split; [reflexivity |]).
    + pose proof (fading_started 1 LambdaDispatchOnOpen (plugged w)) as Hfade.
      cbn [plugged animations] in Hfade. rewrite stopped_length in Hfade.
      split; [|split; [exact Hfade | split]].
      * cbn [started plugged trace animations].
        rewrite stopped_length, <- !app_assoc. reflexivity.
      * destruct (fade_in_completion _ _ Hfade) as [Hdone Htrace].
        eexists. split; [exact Hdone | exact Htrace].
      * destruct (fading_held _ _ _ _ Hfade) as [Hheld Hstop].
        exists (cleared (started 1 LambdaDispatchOnOpen (plugged w))).
        split.
        { apply _clear_anim_calm. right. apply calm_when_no_fade_out.
          right. exact Hheld. }
        split.
        { cbn [cleared trace]. unfold clear_log. rewrite Hheld, Hstop.
          reflexivity. }
        destruct w as [[] ? ? ?]. reflexivity.
    + split; [|destruct w as [[] ? ? ?]; reflexivity].
      cbn [shown plugged trace]. rewrite <- !app_assoc. reflexivity.
  - intros Hopen Hatt Hcalm.
    pose proof (asked_open w) as Hao. rewrite Hopen in Hao.
    pose proof (attached_asked w Hatt) as Haa.
    destruct (dismiss_open_cases kwargs w Hopen Hatt Hcalm)
      as [(Hveto & Hforce & ->) | [(Hgo & Hani & ->) | (Hgo & Hani & ->)]].
    + eexists. split; [reflexivity |]. rewrite Hveto, Hforce. cbn.
      split; reflexivity.
    + eexists. split; [reflexivity |].
      replace (vetoed listeners w && negb (kwargs_get (force kwargs) false))
        with false by (destruct Hgo as [-> | ->];
                       [reflexivity | rewrite andb_false_r; reflexivity]).
      rewrite Hani.
      pose proof (fading_started 0 LambdaRealRemoveWidget (asked w)) as Hfade.
      cbn [asked animations] in Hfade. rewrite stopped_length in Hfade.
      pose proof (started_open 0 LambdaRealRemoveWidget (asked w)) as Hso.
      rewrite Hao in Hso.
      pose proof (attached_started 0 LambdaRealRemoveWidget _ Haa) as Hsa.
      split; [|split; [reflexivity | split; [exact Hfade | split]]].
      * cbn [started asked trace animations].
        rewrite stopped_length, <- !app_assoc. reflexivity.
      * destruct (fade_out_completion _ _ Hfade Hso Hsa)
          as (Hdone & Hrem & Htrace).
        eexists. split; [exact Hdone |]. split; [|exact Hrem].
        rewrite Htrace. destruct w as [[] ? ? ?]. reflexivity.
      * destruct (fading_held _ _ _ _ Hfade) as [Hheld Hstop].
        destruct (removed_cut_short _ Hso Hsa) as [Hrem Htrace].
        exists (cut_short (started 0 LambdaRealRemoveWidget (asked w))).
        split; [apply _clear_anim_cut; assumption || apply Hsa |].
        split; [|split; [exact Hrem |]].
        { rewrite Htrace, Hstop. destruct w as [[] ? ? ?]. reflexivity. }
        destruct w as [[] ? ? ?]. reflexivity.
    + eexists. split; [reflexivity |].
      replace (vetoed listeners w && negb (kwargs_get (force kwargs) false))
        with false by (destruct Hgo as [-> | ->];
                       [reflexivity | rewrite andb_false_r; reflexivity]).
      rewrite Hani. split; [|apply removed_unplugged; assumption].
      cbn [unplugged asked trace view uid set__anim].
      rewrite <- !app_assoc. reflexivity.
Qed.

Lemma remove_all_snoc (l : list wid) (u : wid) :
  ~ In u l -> remove_all u (l ++ [u]) = l.
Proof.
  unfold remove_all, wid in *. intros Hnot.
  rewrite List.filter_app. cbn. rewrite Nat.eqb_refl. cbn.
  rewrite app_nil_r. apply forallb_filter_id, forallb_forall.
  intros x Hin. apply negb_true_iff, Nat.eqb_neq. intros ->. contradiction.
Qed.

Lemma attached_shown (w : World) : attached w -> attached (shown w).
Proof. by_fields w. exact id. Qed.

(** C6.  A full cycle without animation.  From a closed, detached view,
    [open(animation=False)] followed by [dismiss(animation=False)] that is
    not vetoed (no callback of [on_dismiss] returns true, or [force=True])
    ends with [_is_open] false, the view absent from the window's widgets
    and from the subscribers of its resize and keyboard notifications, and
    [_window] reset to [None]; the window is as it was before the cycle. *)
Theorem open_dismiss_cycle (f : option bool) (w : World) :
  _is_open (view w) = false ->
  detached w ->
  ((forall callback v, In callback (listeners "on_dismiss") ->
                       callback v = false) \/
   f = Some true) ->
  exists w1 w2,
    open listeners {| animation := Some false; force := None |} w = Ok tt w1 /\
    _is_open (view w1) = true /\
    In (uid (view w)) (children (Window w1)) /\
    dismiss listeners {| animation := Some false; force := f |} w1
      = Ok tt w2 /\
    _is_open (view w2) = false /\
    ~ In (uid (view w)) (children (Window w2)) /\
    ~ In (uid (view w)) (on_resize_subs (Window w2)) /\
    ~ In (uid (view w)) (on_keyboard_subs (Window w2)) /\
    _window (view w2) = None /\
    Window w2 = Window w.
Proof.
  intros Hclosed Hdet Hquiet.
  pose proof (placed_plugged w Hclosed Hdet) as Hp.
  destruct (plugged_facts w) as (Hpo & Hpu & _).
  pose proof (attached_shown _ (placed_open _ Hp Hpo)) as Hatt.
  assert (Hso : _is_open (view (shown (plugged w))) = true).
  { destruct w as [[] ? ? ?]. reflexivity. }
  exists (shown (plugged w)), (unplugged (asked (shown (plugged w)))).
  split; [rewrite open_closed_eq by exact Hclosed; reflexivity |].
  split; [exact Hso |].
  split; [destruct w as [[] [] ? ?]; cbn; left; reflexivity |].
  split.
  { assert (Hcalm : ~ fade_out_in_flight (shown (plugged w))).
    { apply no_animation_is_calm. destruct w as [[] ? ? ?]. reflexivity. }
    destruct (dismiss_open_cases {| animation := Some false; force := f |}
                _ Hso Hatt Hcalm)
      as [(Hveto & Hforce & _) | [(_ & Hani & _) | (_ & _ & Hdone)]].
    - exfalso. destruct Hquiet as [Hquiet | ->]; [|discriminate].
      unfold vetoed in Hveto. apply existsb_exists in Hveto as (cb & Hin & Hcb).
      rewrite (Hquiet cb _ Hin) in Hcb. discriminate.
    - discriminate.
    - exact Hdone. }
  destruct Hdet as (Hwin & Hc & Hr & Hk).
  assert (HW : Window (unplugged (asked (shown (plugged w)))) = Window w).
  { unfold unplugged, asked, shown, plugged. destruct w as [[] [] ? ?].
    fields. unfold set_subs, set_children.
    cbn [children on_resize_subs on_keyboard_subs win_center list_remove].
    rewrite Nat.eqb_refl, !remove_all_snoc by assumption. reflexivity. }
  rewrite HW.
  repeat split; try assumption; destruct w as [[] ? ? ?]; reflexivity.
Qed.

(** C9.  Centering.  After [open()] the center of the view is the center of
    the window; [_align_center], the callback of the resize notification,
    sets the center of an open view to the window's center, so that after a
    resize of the window the view is centered on the new center; on a closed
    view [_align_center] does nothing, and a resize leaves it alone. *)
Theorem centering (w : World) :
  (_is_open (view w) = false \/ wf w ->
   forall kwargs, exists w',
     open listeners kwargs w = Ok tt w' /\
     center (view w') = win_center (Window w') /\
     win_center (Window w') = win_center (Window w)) /\
  (_is_open (view w) = true ->
   _window (view w) = Some TheWindow ->
   exists w',
     _align_center w = Ok tt w' /\
     center (view w') = win_center (Window w) /\
     Window w' = Window w) /\
  (wf w ->
   _is_open (view w) = true ->
   forall c, exists w',
     Window_resize c w = Ok tt w' /\
     win_center (Window w') = c /\
     center (view w') = c) /\
  (_is_open (view w) = false -> _align_center w = Ok tt w) /\
  (wf w ->
   _is_open (view w) = false ->
   forall c, exists w',
     Window_resize c w = Ok tt w' /\
     view w' = view w).
Proof.
  repeat apply conj.
  - intros Hcase kwargs. destruct (_is_open (view w)) eqn:Hopen.
    + destruct Hcase as [Hcase | (Hplaced & _)]; [discriminate |].
      exists w. split; [apply open_open_eq, Hopen |].
      unfold placed in Hplaced. rewrite Hopen in Hplaced.
      split; [apply Hplaced | reflexivity].
    + rewrite open_closed_eq by exact Hopen.
      destruct (kwargs_get (animation kwargs) true); eexists;
        (split; [reflexivity |]); destruct w as [[] [] ? ?];
        split; reflexivity.
  - intros Hopen Hwin. exists (aligned w).
    split; [apply _align_center_open; assumption |].
    destruct w as [[] ? ? ?]. split; reflexivity.
  - intros (Hplaced & _) Hopen c.
    pose proof (placed_open w Hplaced Hopen) as (Hwin & Hc & Hr & Hk).
    unfold Window_resize. cbv [mbind M_bind modify_Window get_self get_Window].
    cbn [view Window].
    assert (Hsub : memb (uid (view w))
                     (on_resize_subs (set_win_center c (Window w))) = true).
    { apply memb_In. destruct (Window w). cbn. apply count_occ_one_In, Hr. }
    rewrite Hsub. rewrite _align_center_open by assumption.
    eexists. split; [reflexivity |].
    destruct w as [[] [] ? ?]. split; reflexivity.
  - apply _align_center_closed.
  - intros (Hplaced & _) Hclosed c.
    pose proof (placed_closed w Hplaced Hclosed) as (Hwin & Hc & Hr & Hk).
    unfold Window_resize. cbv [mbind M_bind modify_Window get_self get_Window].
    cbn [view Window].
    assert (Hsub : memb (uid (view w))
                     (on_resize_subs (set_win_center c (Window w))) = false).
    { apply not_true_is_false. intros Hin. apply memb_In in Hin.
      destruct (Window w). cbn in Hin. contradiction. }
    rewrite Hsub. eexists. split; reflexivity.
Qed.

(** C2 (amended).  In every reachable world at most one animation is
    running, and it is the one held in [_anim].  While a fade-out is in
    flight the view is still open, so [open()] returns at once and changes
    nothing: the fade-out keeps running and its completion removes the
    view.  Whatever happens next, the animation held in [_anim] before is
    not running afterwards unless [_anim] still holds it. *)
Theorem one_animation_at_a_time (w : World) :
  reachable listeners w ->
  single_animation w /\
  (forall h,
     fading h 0 LambdaRealRemoveWidget w ->
     _is_open (view w) = true /\
     (forall kwargs, open listeners kwargs w = Ok tt w) /\
     exists w',
       Animation_complete listeners h w = Ok tt w' /\
       removed w' /\
       In (RemoveWidget (uid (view w))) (trace w')) /\
  (forall o, exists w',
     step listeners o w = Ok tt w' /\
     single_animation w' /\
     forall h ani,
       _anim (view w) = Some h ->
       _anim (view w') <> Some h ->
       animations w' !! h = Some ani ->
       running ani = false).
Proof.
  intros Hreach. pose proof (reachable_wf w Hreach) as Hwf.
  pose proof Hwf as (Hplaced & Hsingle & Hok).
  split; [exact Hsingle |]. split.
  - intros h Hfade. pose proof Hfade as [Hanim Hh].
    destruct (Hok h _ Hh eq_refl) as [_ Hopen].
    split; [exact Hopen |].
    split; [intros kwargs; apply open_open_eq, Hopen |].
    destruct (fade_out_completion h w Hfade Hopen
                (placed_open w Hplaced Hopen)) as (Hdone & Hrem & Htrace).
    eexists. split; [exact Hdone |]. split; [exact Hrem |].
    rewrite Htrace. apply in_or_app. right. cbn. tauto.
  - intros o. destruct (step_wf o w Hwf) as (w' & Hstep & Hwf').
    exists w'. split; [exact Hstep |].
    destruct Hwf' as (_ & Hsingle' & _). split; [exact Hsingle' |].
    intros h ani Hold Hnew Hh.
    destruct (running ani) eqn:Hrun; [|reflexivity].
    specialize (Hsingle' h ani Hh Hrun). contradiction.
Qed.

(** *** Further properties of the methods *)

Lemma _align_center_raise (w : World) :
  _is_open (view w) = true ->
  _window (view w) = None ->
  _align_center w = Raise AttributeError.
Proof. intros Hopen Hwin. open_world w. exec. reflexivity. Qed.

Lemma Window_resize_eq (c : point) (w : World) :
  Window_resize c w =
    if memb (uid (view w)) (on_resize_subs (Window w))
    then _align_center (resized c w)
    else Ok tt (resized c w).
Proof.
  unfold Window_resize, resized.
  cbv [mbind M_bind modify_Window get_self get_Window]. cbn [view Window].
  destruct (Window w) as [? ? ? ?]. cbn [set_win_center on_resize_subs].
  destruct (memb _ _); reflexivity.
Qed.

Lemma Window_keyboard_eq (key : Z) (w : World) :
  Window_keyboard listeners key w =
    if memb (uid (view w)) (on_keyboard_subs (Window w))
    then match _handle_keyboard listeners key w with
         | Ok _ w' => Ok tt w'
         | Raise e => Raise e
         end
    else Ok tt w.
Proof.
  unfold Window_keyboard. cbv [mbind M_bind get_self get_Window].
  destruct (memb _ _); [|reflexivity].
  destruct (_handle_keyboard listeners key w); reflexivity.
Qed.

Lemma Window_touch_eq (p : phase) (touch : Touch) (w : World) :
  Window_touch listeners p touch w =
    if memb (uid (view w)) (children (Window w))
    then match
           match p with
           | TouchDown => on_touch_down touch w
           | TouchMove => on_touch_move touch w
           | TouchUp => on_touch_up listeners touch w
           end
         with
         | Ok _ w' => Ok tt w'
         | Raise e => Raise e
         end
    else Ok tt w.
Proof.
  unfold Window_touch. cbv [mbind M_bind get_self get_Window].
  destruct (memb _ _); [|reflexivity].
  destruct p;
    [destruct (on_touch_down touch w)
    |destruct (on_touch_move touch w)
    |destruct (on_touch_up listeners touch w)]; reflexivity.
Qed.

Section Frame.

(** A reading [f] of the view that the assignments made by the lifecycle
    do not affect is the same before and after every method. *)
Context {A : Type} (f : ModalView -> A).
Hypothesis f_anim : forall x v, f (set__anim x v) = f v.
Hypothesis f_window : forall x v, f (set__window x v) = f v.
Hypothesis f_is_open : forall x v, f (set__is_open x v) = f v.

Lemma frame__real_remove_widget (w w' : World) :
  _real_remove_widget w = Ok tt w' -> f (view w') = f (view w).
Proof.
  intros H. destruct (_is_open (view w)) eqn:Hopen.
  - destruct (_window (view w)) as [[]|] eqn:Hwin.
    + rewrite _real_remove_widget_eq in H by assumption.
      injection H as <-. cbn [unplugged view].
      rewrite f_window, f_is_open. reflexivity.
    + rewrite _real_remove_widget_raise in H by assumption. discriminate.
  - rewrite _real_remove_widget_closed in H by assumption.
    injection H as <-. reflexivity.
Qed.

Lemma frame_run_completions (cs : list completion) (w w' : World) :
  run_completions listeners cs w = Ok tt w' -> f (view w') = f (view w).
Proof.
  revert w. induction cs as [|c cs IH]; intros w H.
  - injection H as <-. reflexivity.
  - rewrite run_completions_cons in H. destruct c.
    + apply IH in H. exact H.
    + destruct (_real_remove_widget w) as [[] w1|] eqn:Hremove;
        [|discriminate].
      apply IH in H. rewrite H.
      apply frame__real_remove_widget, Hremove.
Qed.

Lemma frame__clear_anim (w w' : World) :
  _clear_anim listeners w = Ok tt w' -> f (view w') = f (view w).
Proof.
  rewrite _clear_anim_eq. intros H.
  destruct (run_completions _ _ _) as [[] w1|] eqn:Hrun; [|discriminate].
  injection H as <-. apply frame_run_completions in Hrun.
  cbn [unheld view]. rewrite f_anim. exact Hrun.
Qed.

Lemma frame_dismiss (kwargs : Kwargs) (w w' : World) :
  dismiss listeners kwargs w = Ok tt w' -> f (view w') = f (view w).
Proof.
  rewrite dismiss_eq. intros H.
  destruct (_clear_anim listeners w) as [[] w1|] eqn:Hclear; [|discriminate].
  apply frame__clear_anim in Hclear. rewrite <- Hclear.
  unfold proceed in H. destruct (negb _).
  - injection H as <-. reflexivity.
  - destruct (_ && _); [|destruct (kwargs_get _ _)].
    + injection H as <-. reflexivity.
    + injection H as <-. cbn [started asking view]. apply f_anim.
    + apply frame__real_remove_widget in H. exact H.
Qed.

Hypothesis f_alpha : forall x v, f (set__anim_alpha x v) = f v.
Hypothesis f_center : forall x v, f (set_center x v) = f v.
Hypothesis f_touch : forall x v, f (set__touch_started_inside x v) = f v.

Lemma frame__align_center (w w' : World) :
  _align_center w = Ok tt w' -> f (view w') = f (view w).
Proof.
  intros H. destruct (_is_open (view w)) eqn:Hopen.
  - destruct (_window (view w)) as [[]|] eqn:Hwin.
    + rewrite _align_center_open in H by assumption.
      injection H as <-. cbn [aligned view]. apply f_center.
    + rewrite _align_center_raise in H by assumption. discriminate.
  - rewrite _align_center_closed in H by assumption.
    injection H as <-. reflexivity.
Qed.

Lemma frame_Animation_complete (h : handle) (w w' : World) :
  Animation_complete listeners h w = Ok tt w' -> f (view w') = f (view w).
Proof.
  intros H. destruct (animations w !! h) as [ani|] eqn:Hh;
    [destruct (running ani) eqn:Hrun |].
  - rewrite (Animation_complete_eq h ani w Hh Hrun) in H.
    apply frame_run_completions in H. rewrite H.
    cbn [finished view]. apply f_alpha.
  - rewrite Animation_complete_idle in H by (intros; congruence).
    injection H as <-. reflexivity.
  - rewrite Animation_complete_idle in H by (intros; congruence).
    injection H as <-. reflexivity.
Qed.

Lemma frame_Window_resize (c : point) (w w' : World) :
  Window_resize c w = Ok tt w' -> f (view w') = f (view w).
Proof.
  rewrite Window_resize_eq. destruct (memb _ _); intros H.
  - apply frame__align_center in H. exact H.
  - injection H as <-. reflexivity.
Qed.

Lemma frame__handle_keyboard (key : Z) (r : pyret) (w w' : World) :
  _handle_keyboard listeners key w = Ok r w' -> f (view w') = f (view w).
Proof.
  rewrite _handle_keyboard_eq. destruct (_ && _); intros H.
  - destruct (dismiss listeners no_kwargs w) as [[] w1|] eqn:Hdismiss;
      [|discriminate].
    injection H as _ <-. apply frame_dismiss in Hdismiss. exact Hdismiss.
  - injection H as _ <-. reflexivity.
Qed.

Lemma frame_on_touch_down (touch : Touch) (r : pyret) (w w' : World) :
  on_touch_down touch w = Ok r w' -> f (view w') = f (view w).
Proof.
  rewrite on_touch_down_eq. cbv zeta. intros H. injection H as _ <-.
  destruct (_ || _); cbn [logged touched view]; apply f_touch.
Qed.

Lemma frame_on_touch_move (touch : Touch) (r : pyret) (w w' : World) :
  on_touch_move touch w = Ok r w' -> f (view w') = f (view w).
Proof.
  rewrite on_touch_move_eq. intros H. injection H as _ <-.
  destruct (_ || _); reflexivity.
Qed.

Lemma frame_on_touch_up (touch : Touch) (r : pyret) (w w' : World) :
  on_touch_up listeners touch w = Ok r w' -> f (view w') = f (view w).
Proof.
  rewrite on_touch_up_eq. destruct (_ && _); intros H.
  - destruct (dismiss listeners no_kwargs w) as [[] w1|] eqn:Hdismiss;
      [|discriminate].
    injection H as _ <-. cbn [touched view]. rewrite f_touch.
    apply frame_dismiss in Hdismiss. exact Hdismiss.
  - injection H as _ <-. cbn [touched logged view]. apply f_touch.
Qed.

Lemma frame_open_open (kwargs : Kwargs) (w w' : World) :
  _is_open (view w) = true ->
  open listeners kwargs w = Ok tt w' -> f (view w') = f (view w).
Proof.
  intros Hopen H. rewrite open_open_eq in H by exact Hopen.
  injection H as <-. reflexivity.
Qed.

Lemma frame_step (o : op) (w w' : World) :
  opens o w = false ->
  step listeners o w = Ok tt w' -> f (view w') = f (view w).
Proof.
  destruct o as [kwargs|kwargs|h|c|key|p touch]; cbn [step opens]; intros Ho H.
  - apply negb_false_iff in Ho. exact (frame_open_open kwargs w w' Ho H).
  - exact (frame_dismiss kwargs w w' H).
  - exact (frame_Animation_complete h w w' H).
  - exact (frame_Window_resize c w w' H).
  - rewrite Window_keyboard_eq in H. destruct (memb _ _).
    + destruct (_handle_keyboard listeners key w) as [r w1|] eqn:Hkey;
        [|discriminate].
      injection H as <-. exact (frame__handle_keyboard key r w w1 Hkey).
    + injection H as <-. reflexivity.
  - rewrite Window_touch_eq in H. destruct (memb _ _).
    + destruct p.
      * destruct (on_touch_down touch w) as [r w1|] eqn:Ht; [|discriminate].
        injection H as <-. exact (frame_on_touch_down touch r w w1 Ht).
      * destruct (on_touch_move touch w) as [r w1|] eqn:Ht; [|discriminate].
        injection H as <-. exact (frame_on_touch_move touch r w w1 Ht).
      * destruct (on_touch_up listeners touch w) as [r w1|] eqn:Ht;
          [|discriminate].
        injection H as <-. exact (frame_on_touch_up touch r w w1 Ht).
    + injection H as <-. reflexivity.
Qed.

End Frame.

Lemma run_cons (o : op) (ops : list op) (w : World) :
  run listeners (o :: ops) w =
    match step listeners o w with
    | Ok _ w' => run listeners ops w'
    | Raise e => Raise e
    end.
Proof. reflexivity. Qed.

Lemma run_app (ops1 ops2 : list op) (w w1 : World) :
  run listeners ops1 w = Ok tt w1 ->
  run listeners (ops1 ++ ops2) w = run listeners ops2 w1.
Proof.
  revert w. induction ops1 as [|o ops1 IH]; intros w H.
  - injection H as <-. reflexivity.
  - cbn [app]. rewrite run_cons in *.
    destruct (step listeners o w) as [[] w'|]; [|discriminate].
    apply IH, H.
Qed.

(** X2.  The [_align_center] callbacks that [open] registers with [fbind]
    on the view's own [center] and [size] are never unregistered: an [open]
    that finds the view closed adds one of each, and nothing else changes
    their number, so they pile up with every opening. *)
Theorem fbind_accumulates (o : op) (w w' : World) :
  step listeners o w = Ok tt w' ->
  fbinds (view w') =
    if opens o w
    then (S (center_fbinds (view w)), S (size_fbinds (view w)))
    else fbinds (view w).
Proof.
  intros H. destruct (opens o w) eqn:Ho.
  - destruct o; try discriminate. cbn [opens step] in *.
    apply negb_true_iff in Ho. rewrite open_closed_eq in H by exact Ho.
    destruct (kwargs_get _ _); injection H as <-;
      destruct w as [[] ? ? ?]; reflexivity.
  - apply (frame_step fbinds) with (o := o); try assumption;
      intros x v; reflexivity.
Qed.

(** X3.  [dismiss] never writes [_anim_alpha]: a dismissal without
    animation removes the view with the opacity it had, where the fade-out
    would have brought it to 0. *)
Theorem dismiss_keeps_anim_alpha (kwargs : Kwargs) (w w' : World) :
  dismiss listeners kwargs w = Ok tt w' ->
  _anim_alpha (view w') = _anim_alpha (view w).
Proof.
  apply (frame_dismiss _anim_alpha); intros x v; reflexivity.
Qed.

(** X4.  In every reachable world an open view refers to the window, is
    exactly once among its widgets and among the subscribers of each of
    its two notifications, and is centered on it; a closed view has
    [_window = None] and is in none of the three lists. *)
Theorem reachable_lifecycle_invariant (w : World) :
  reachable listeners w ->
  (_is_open (view w) = true ->
   attached w /\ center (view w) = win_center (Window w)) /\
  (_is_open (view w) = false -> detached w).
Proof.
  intros Hreach. destruct (reachable_wf w Hreach) as (Hplaced & _).
  unfold placed in Hplaced. split; intros Hopen; rewrite Hopen in Hplaced;
    exact Hplaced.
Qed.

(** X5.  No exception: from a reachable world every further sequence of
    calls, completions and input events runs to the end, so the accesses
    [self._window.center] and [self._window.remove_widget] never meet
    [_window = None]. *)
Theorem reachable_never_raises (ops : list op) (w : World) :
  reachable listeners w ->
  exists w', run listeners ops w = Ok tt w' /\ reachable listeners w'.
Proof.
  intros Hreach. pose proof (reachable_wf w Hreach) as Hwf.
  destruct (run_wf ops w Hwf) as (w' & Hrun & _).
  exists w'. split; [exact Hrun |].
  destruct Hreach as (v & W & ops0 & Hfresh & Hrun0).
  exists v, W, (ops0 ++ ops). split; [exact Hfresh |].
  rewrite (run_app ops0 ops _ _ Hrun0). exact Hrun.
Qed.

(** X6.  A closed view is quiet: in a reachable world with [_is_open]
    false no animation is running, so no completion callback can dispatch
    [on_open] or remove the view any more. *)
Theorem closed_view_has_no_running_animation (w : World) :
  reachable listeners w ->
  _is_open (view w) = false ->
  (forall h ani, animations w !! h = Some ani -> running ani = false) /\
  (forall h, Animation_complete listeners h w = Ok tt w).
Proof.
  intros Hreach Hclosed. destruct (reachable_wf w Hreach) as (_ & _ & Hok).
  assert (Hidle : forall h ani,
             animations w !! h = Some ani -> running ani = false).
  { intros h ani Hh. destruct (running ani) eqn:Hrun; [|reflexivity].
    destruct (Hok h ani Hh Hrun) as [_ Hopen]. congruence. }
  split; [exact Hidle |].
  intros h. apply Animation_complete_idle. intros ani Hh. exact (Hidle h ani Hh).
Qed.

Lemma _clear_anim_unheld (w w' : World) :
  _clear_anim listeners w = Ok tt w' -> _anim (view w') = None.
Proof.
  rewrite _clear_anim_eq. intros H.
  destruct (run_completions _ _ _) as [[] w1|]; [|discriminate].
  injection H as <-. reflexivity.
Qed.

(** X7.  Once a call of [dismiss] has closed an open view, the view is in
    a state that further calls of [dismiss] and [_real_remove_widget] leave
    exactly as it is. *)
Theorem dismiss_after_closing_dismiss (kwargs kwargs' : Kwargs)
    (w w1 : World) :
  _is_open (view w) = true ->
  dismiss listeners kwargs w = Ok tt w1 ->
  _is_open (view w1) = false ->
  dismiss listeners kwargs' w1 = Ok tt w1 /\
  _real_remove_widget w1 = Ok tt w1.
Proof.
  intros Hopen Hrun Hclosed.
  split; [|apply _real_remove_widget_closed, Hclosed].
  rewrite dismiss_closed_eq by exact Hclosed. f_equal. apply cleared_same.
  rewrite dismiss_eq in Hrun.
  destruct (_clear_anim listeners w) as [[] c|] eqn:Hclear; [|discriminate].
  apply _clear_anim_unheld in Hclear.
  unfold proceed in Hrun. destruct (_is_open (view c)) eqn:Hc; cbn [negb] in Hrun.
  - destruct (_ && _); [|destruct (kwargs_get (animation kwargs) true)].
    + injection Hrun as <-. cbn [asking view] in Hclosed. congruence.
    + injection Hrun as <-. rewrite started_open in Hclosed.
      cbn [asking view] in Hclosed. congruence.
    + destruct (_window (view (asking c))) as [[]|] eqn:Hwin.
      * rewrite _real_remove_widget_eq in Hrun by assumption.
        injection Hrun as <-. destruct c as [[] ? ? ?]. exact Hclear.
      * rewrite _real_remove_widget_raise in Hrun by assumption.
        discriminate.
  - injection Hrun as <-. exact Hclear.
Qed.

(** X8.  Opening with the fade-in and letting it complete gives the same
    view and window as opening without animation, except that [_anim] holds
    the finished animation; both ways dispatch the same events in the same
    order. *)
Theorem animated_open_matches_immediate (animated immediate : Kwargs)
    (w : World) :
  _is_open (view w) = false ->
  kwargs_get (animation animated) true = true ->
  kwargs_get (animation immediate) true = false ->
  exists wa wa' wi,
    open listeners animated w = Ok tt wa /\
    Animation_complete listeners (length (animations w)) wa = Ok tt wa' /\
    open listeners immediate w = Ok tt wi /\
    view wa' = set__anim (Some (length (animations w))) (view wi) /\
    Window wa' = Window wi /\
    dispatched (trace wa') = dispatched (trace wi).
Proof.
  intros Hclosed Ha Hi. rewrite !open_closed_eq by exact Hclosed.
  rewrite Ha, Hi.
  pose proof (fading_started 1 LambdaDispatchOnOpen (plugged w)) as Hfade.
  cbn [plugged animations] in Hfade. rewrite stopped_length in Hfade.
  destruct (fade_in_completion _ _ Hfade) as [Hdone _].
  eexists. eexists. eexists. split; [reflexivity |].
  split; [exact Hdone |]. split; [reflexivity |].
  split; [|split].
  - cbn [logged finished started shown view animations plugged].
    rewrite stopped_length. destruct w as [[] ? ? ?]. reflexivity.
  - reflexivity.
  - cbn [logged finished started shown trace plugged].
    rewrite !dispatched_app. cbn [dispatched app].
    rewrite <- !app_assoc. reflexivity.
Qed.

(** X9.  On a view with no fade-out in flight, dismissing with the
    fade-out and letting it complete gives the same window as dismissing
    without animation, and the same view except that [_anim_alpha] has
    reached 0 and [_anim] holds the finished animation; both ways dispatch
    the same events in the same order. *)
Theorem animated_dismiss_matches_immediate (animated immediate : Kwargs)
    (w : World) :
  _is_open (view w) = true ->
  attached w ->
  ~ fade_out_in_flight w ->
  kwargs_get (animation animated) true = true ->
  kwargs_get (animation immediate) true = false ->
  kwargs_get (force animated) false = kwargs_get (force immediate) false ->
  vetoed listeners w && negb (kwargs_get (force animated) false) = false ->
  exists wa wa' wi,
    dismiss listeners animated w = Ok tt wa /\
    Animation_complete listeners (length (animations w)) wa = Ok tt wa' /\
    dismiss listeners immediate w = Ok tt wi /\
    view wa' =
      set__anim (Some (length (animations w)))
        (set__anim_alpha 0 (view wi)) /\
    Window wa' = Window wi /\
    dispatched (trace wa') = dispatched (trace wi).
Proof.
  intros Hopen Hatt Hcalm Ha Hi Hforce Hgo.
  rewrite !dismiss_open_eq by assumption.
  rewrite <- Hforce, Hgo, Ha, Hi.
  pose proof (asked_open w) as Hao. rewrite Hopen in Hao.
  pose proof (attached_asked w Hatt) as Haa.
  rewrite (_real_remove_widget_eq (asked w)) by (exact Hao || apply Haa).
  pose proof (fading_started 0 LambdaRealRemoveWidget (asked w)) as Hfade.
  cbn [asked animations] in Hfade. rewrite stopped_length in Hfade.
  pose proof (started_open 0 LambdaRealRemoveWidget (asked w)) as Hso.
  rewrite Hao in Hso.
  destruct (fade_out_completion _ _ Hfade Hso (attached_started _ _ _ Haa))
    as (Hdone & _ & _).
  eexists. eexists. eexists. split; [reflexivity |].
  split; [exact Hdone |]. split; [reflexivity |].
  split; [|split].
  - cbn [unplugged finished started asked view animations].
    rewrite stopped_length. destruct w as [[] ? ? ?]. reflexivity.
  - destruct w as [[] ? ? ?]. reflexivity.
  - cbn [unplugged finished started asked trace].
    rewrite !dispatched_app. cbn [dispatched app].
    rewrite <- !app_assoc. reflexivity.
Qed.

(** X10.  With [auto_dismiss] true a gesture pressed outside the view never
    reaches the children: the press and the moves are swallowed, and the
    release calls [dismiss()] in place of the default propagation. *)
Theorem outside_gesture_is_not_forwarded (press move release : Touch)
    (w : World) :
  window_ok w ->
  auto_dismiss (view w) = true ->
  collide_point (view w) (pos press) = false ->
  exists wd,
    on_touch_down press w = Ok PyTrue (touched (Some false) w) /\
    on_touch_move move (touched (Some false) w)
      = Ok PyTrue (touched (Some false) w) /\
    dismiss listeners no_kwargs (touched (Some false) w) = Ok tt wd /\
    on_touch_up listeners release (touched (Some false) w)
      = Ok PyTrue (touched None wd) /\
    forwarded (trace (touched None wd)) = forwarded (trace w).
Proof.
  intros Hok Hauto Hout.
  destruct (dismiss_default_ok (touched (Some false) w)
              (window_ok_touched _ w Hok))
    as (wd & rest & Hdismiss & Htrace & Hrest).
  exists wd.
  split; [|split; [|split; [exact Hdismiss | split]]].
  - rewrite on_touch_down_eq. cbv zeta. rewrite Hauto, Hout. reflexivity.
  - rewrite on_touch_move_eq. destruct w as [[] ? ? ?]. cbn in *. subst.
    reflexivity.
  - rewrite on_touch_up_eq. rewrite Hdismiss.
    destruct w as [[] ? ? ?]. cbn in *. subst. reflexivity.
  - cbn [touched trace] in *. rewrite Htrace, forwarded_app.
    rewrite (forwarded_none rest Hrest). apply app_nil_r.
Qed.

(** X11.  With [auto_dismiss] false no input dismisses the view: every
    phase of every gesture is passed on to the children wherever it lands,
    the escape key is ignored, and neither dispatches an event or touches
    the window or the animations. *)
Theorem no_auto_dismiss_never_dismisses (touch : Touch) (key : Z)
    (w : World) :
  auto_dismiss (view w) = false ->
  on_touch_down touch w =
    Ok PyTrue
      (logged (Super TouchDown touch)
         (touched (Some (collide_point (view w) (pos touch))) w)) /\
  on_touch_move touch w = Ok PyTrue (logged (Super TouchMove touch) w) /\
  on_touch_up listeners touch w =
    Ok PyTrue (touched None (logged (Super TouchUp touch) w)) /\
  _handle_keyboard listeners key w = Ok PyNone w.
Proof.
  intros Hauto. repeat apply conj.
  - rewrite on_touch_down_eq. cbv zeta. rewrite Hauto. reflexivity.
  - rewrite on_touch_move_eq, Hauto. reflexivity.
  - rewrite on_touch_up_eq, Hauto. reflexivity.
  - rewrite _handle_keyboard_eq, Hauto, andb_false_r. reflexivity.
Qed.

End Properties.

(** ** What callbacks can and cannot do *)

Lemma run_completions_any_listeners
    (listeners listeners' : string -> list (ModalView -> bool))
    (cs : list completion) (w : World) :
  run_completions listeners cs w = run_completions listeners' cs w.
Proof.
  revert w. induction cs as [|c cs IH]; intros w; [reflexivity |].
  rewrite !run_completions_cons. destruct c; [apply IH |].
  destruct (_real_remove_widget w) as [[] w'|]; [apply IH | reflexivity].
Qed.

Lemma _clear_anim_any_listeners
    (listeners listeners' : string -> list (ModalView -> bool)) (w : World) :
  _clear_anim listeners w = _clear_anim listeners' w.
Proof.
  rewrite !_clear_anim_eq.
  rewrite (run_completions_any_listeners listeners listeners'). reflexivity.
Qed.


(** X13.  Of all callbacks only those of [on_dismiss] can influence a
    dismissal: two sets of callbacks that agree on [on_dismiss] give the
    same result, whatever their callbacks of [on_pre_dismiss] return. *)
Theorem only_on_dismiss_can_veto
    (listeners listeners' : string -> list (ModalView -> bool))
    (kwargs : Kwargs) (w : World) :
  listeners "on_dismiss" = listeners' "on_dismiss" ->
  dismiss listeners kwargs w = dismiss listeners' kwargs w.
Proof.
  intros Hsame. rewrite !dismiss_eq.
  rewrite (_clear_anim_any_listeners listeners listeners').
  destruct (_clear_anim listeners' w) as [[] c|]; [|reflexivity].
  unfold proceed. rewrite Hsame. reflexivity.
Qed.

(** ** Instances on the sample worlds *)

Lemma sample_fresh : fresh sample_view sample_Window.
Proof.
  unfold fresh. cbn.
  repeat split; try reflexivity; intuition discriminate.
Qed.

Lemma sample_open_reachable (listeners : string -> list (ModalView -> bool)) :
  reachable listeners sample_open.
Proof.
  exists sample_view, sample_Window, [OpOpen immediate].
  split; [exact sample_fresh | reflexivity].
Qed.


Lemma sample_dismissing_reachable : reachable quiet sample_dismissing.
Proof.
  exists sample_view, sample_Window, [OpOpen immediate; OpDismiss no_kwargs].
  split; [exact sample_fresh | reflexivity].
Qed.

Lemma sample_reclosed_reachable : reachable quiet sample_reclosed.
Proof.
  exists sample_view, sample_Window,
    [OpOpen immediate; OpDismiss no_kwargs; OpAnimComplete 0].
  split; [exact sample_fresh | reflexivity].
Qed.

Lemma sample_open_attached : attached sample_open.
Proof. repeat split. Qed.

Lemma sample_opening_attached : attached sample_opening.
Proof. repeat split. Qed.

Lemma sample_closed_detached : detached sample_closed.
Proof. unfold detached. cbn. repeat split; intuition discriminate. Qed.

Lemma sample_press_outside :
  on_touch_down outside sample_open =
    Ok PyTrue (touched (Some false) sample_open).
Proof. reflexivity. Qed.

Lemma sample_window_ok : window_ok sample_open.
Proof. intros _. reflexivity. Qed.

Lemma sample_opening_calm : ~ fade_out_in_flight sample_opening.
Proof. intros [H | []]. discriminate. Qed.

Lemma sample_open_calm : ~ fade_out_in_flight sample_open.
Proof. intros []. Qed.

Lemma sample_dismissing_attached : attached sample_dismissing.
Proof. repeat split. Qed.

Lemma vetoing_vetoes (v : ModalView) :
  Exists (fun callback => callback v = true) (vetoing "on_dismiss").
Proof. apply Exists_cons_hd. reflexivity. Qed.

Lemma dismiss_veto_and_force_witness :
  _is_open (view sample_opening) = true /\
  attached sample_opening /\
  ~ fade_out_in_flight sample_opening /\
  (exists w',
     dismiss vetoing no_kwargs sample_opening = Ok tt w' /\
     _is_open (view w') = true /\
     attached w' /\
     Window w' = Window sample_opening) /\
  (exists w',
     dismiss vetoing forced sample_opening = Ok tt w' /\
     removed w') /\
  held_callbacks sample_dismissing = [LambdaRealRemoveWidget] /\
  (exists w',
     dismiss vetoing no_kwargs sample_dismissing = Ok tt w' /\
     removed w').
Proof.
  split; [reflexivity |]. split; [exact sample_opening_attached |].
  split; [exact sample_opening_calm |]. split; [|split; [|split]].
  - destruct (proj1 (dismiss_veto_and_force vetoing no_kwargs sample_opening
                       eq_refl sample_opening_attached) sample_opening_calm)
      as (w' & rest & Hrun & _ & _ & Hveto & _).
    exists w'. split; [exact Hrun |].
    destruct (Hveto (vetoing_vetoes _) eq_refl) as (_ & Hopen & Hatt & HW).
    repeat split; assumption || apply Hatt.
  - destruct (proj1 (dismiss_veto_and_force vetoing forced sample_opening
                       eq_refl sample_opening_attached) sample_opening_calm)
      as (w' & rest & Hrun & _ & _ & _ & Hforce).
    exists w'. split; [exact Hrun | exact (Hforce eq_refl)].
  - reflexivity.
  - destruct (proj2 (dismiss_veto_and_force vetoing no_kwargs
                       sample_dismissing eq_refl sample_dismissing_attached)
                eq_refl) as (w' & Hrun & Hrem & _).
    exists w'. split; [exact Hrun | exact Hrem].
Defined.

(** C1, as stated, fails.  The view was opened and a forced [dismiss()]
    started the fade-out (animation 0); the view is still open.  A further
    [dismiss()] stops the fade-out, whose callback removes the view, and
    returns at the guard: it dispatches neither [on_pre_dismiss] nor
    [on_dismiss], with [force=True] as without, and the callback of
    [on_dismiss] that would have vetoed is not asked. *)
Lemma dismiss_during_fade_out_dispatches_nothing :
  run vetoing [OpOpen immediate; OpDismiss forced_fade] sample_closed
    = Ok tt sample_dismissing /\
  _is_open (view sample_dismissing) = true /\
  dismiss vetoing no_kwargs sample_dismissing = Ok tt sample_cut_short /\
  dismiss vetoing forced sample_dismissing = Ok tt sample_cut_short /\
  trace sample_cut_short =
    trace sample_dismissing ++ [AnimStop 0; RemoveWidget 1; Unbind 1] /\
  _is_open (view sample_cut_short) = false /\
  children (Window sample_cut_short) = [7].
Proof. repeat split. Qed.

(** C2, as stated, fails.  The view was opened and [dismiss()] started the
    fade-out (animation 0).  [open()] now returns at once: [_anim] still
    holds animation 0, which is still running, and when it completes its
    callback removes the view. *)
Lemma open_during_fade_out_is_ignored :
  run quiet [OpOpen immediate; OpDismiss no_kwargs] sample_closed
    = Ok tt sample_dismissing /\
  fading 0 0 LambdaRealRemoveWidget sample_dismissing /\
  open quiet no_kwargs sample_dismissing = Ok tt sample_dismissing /\
  Animation_complete quiet 0 sample_dismissing = Ok tt sample_reclosed /\
  In (RemoveWidget 1) (trace sample_reclosed) /\
  _is_open (view sample_reclosed) = false.
Proof.
  repeat split; try reflexivity.
  cbn. tauto.
Qed.

Lemma one_animation_at_a_time_witness :
  reachable quiet sample_dismissing /\
  single_animation sample_dismissing /\
  open quiet no_kwargs sample_dismissing = Ok tt sample_dismissing.
Proof.
  split; [exact sample_dismissing_reachable |].
  destruct (one_animation_at_a_time quiet sample_dismissing
              sample_dismissing_reachable) as (Hsingle & Hfade & _).
  split; [exact Hsingle |].
  assert (Hfading : fading 0 0 LambdaRealRemoveWidget sample_dismissing)
    by (split; reflexivity).
  destruct (Hfade 0 Hfading) as (_ & Hopen & _). apply Hopen.
Defined.

(** C3, as stated, fails.  The view was opened, dismissed with the fade-out,
    and the fade-out has finished: the view is closed and [_anim] still
    holds the finished animation.  [dismiss()] now resets [_anim] to
    [None]. *)
Lemma dismiss_while_closed_resets_anim :
  run quiet [OpOpen immediate; OpDismiss no_kwargs; OpAnimComplete 0]
      sample_closed = Ok tt sample_reclosed /\
  _is_open (view sample_reclosed) = false /\
  _anim (view sample_reclosed) = Some 0 /\
  dismiss quiet no_kwargs sample_reclosed = Ok tt sample_redismissed /\
  _anim (view sample_redismissed) = None /\
  view sample_redismissed <> view sample_reclosed.
Proof.
  repeat split; try reflexivity. discriminate.
Qed.

Lemma dismiss_while_closed_witness :
  _is_open (view sample_reclosed) = false /\
  exists w',
    dismiss quiet no_kwargs sample_reclosed = Ok tt w' /\
    view w' = set__anim None (view sample_reclosed) /\
    Window w' = Window sample_reclosed /\
    animations w' = animations sample_reclosed.
Proof.
  split; [reflexivity |].
  destruct (dismiss_while_closed quiet no_kwargs sample_reclosed eq_refl)
    as (w' & Hrun & Hview & HW & _ & _ & _ & _ & Hwf).
  exists w'. repeat split; try assumption.
  apply Hwf, reachable_wf with (listeners := quiet).
  exact sample_reclosed_reachable.
Defined.

Lemma open_while_open_is_noop_witness :
  _is_open (view sample_open) = true /\
  open quiet no_kwargs sample_open = Ok tt sample_open.
Proof.
  split; [reflexivity |].
  apply (open_while_open_is_noop quiet no_kwargs sample_open). reflexivity.
Defined.

Lemma lifecycle_ordering_witness :
  (_is_open (view sample_closed) = false /\
   exists w',
     open quiet immediate sample_closed = Ok tt w' /\
     trace w' =
       [Dispatch "on_pre_open"; AddWidget 1; Bind 1; SetAlpha 1;
        Dispatch "on_open"]) /\
  (_is_open (view sample_open) = true /\
   attached sample_open /\
   ~ fade_out_in_flight sample_open /\
   exists w' w'',
     dismiss quiet no_kwargs sample_open = Ok tt w' /\
     trace w' =
       trace sample_open ++
       [Dispatch "on_pre_dismiss"; Dispatch "on_dismiss"; AnimStart 0] /\
     Animation_complete quiet 0 w' = Ok tt w'' /\
     trace w'' =
       trace w' ++ [SetAlpha 0; AnimComplete 0; RemoveWidget 1; Unbind 1]).
Proof.
  split.
  - split; [reflexivity |].
    destruct (proj1 (lifecycle_ordering quiet immediate sample_closed) eq_refl)
      as (w' & Hrun & Htrace & _).
    exists w'. split; [exact Hrun | exact Htrace].
  - split; [reflexivity |]. split; [exact sample_open_attached |].
    split; [exact sample_open_calm |].
    destruct (proj2 (lifecycle_ordering quiet no_kwargs sample_open) eq_refl
                sample_open_attached sample_open_calm)
      as (w' & Hrun & Htrace & _ & _ & (w'' & Hdone & Htrace' & _) & _).
    exists w', w''. repeat split; assumption.
Defined.

(** C5, as stated, fails.  A [dismiss()] during the fade-in stops the
    fade-in, and the stop dispatches [on_open] although the fade-in has not
    completed: [_anim_alpha] is still 0.  A [dismiss()] during the fade-out
    stops the fade-out, and the stop removes the view although the fade-out
    has not completed: [_anim_alpha] is still 1, and the call is one with
    animation. *)
Lemma completion_callbacks_run_at_the_stop :
  open quiet no_kwargs sample_closed = Ok tt sample_opening /\
  dismiss quiet no_kwargs sample_opening = Ok tt sample_interrupted /\
  trace sample_interrupted =
    trace sample_opening ++
    [AnimStop 0; Dispatch "on_open"; Dispatch "on_pre_dismiss";
     Dispatch "on_dismiss"; AnimStart 1] /\
  _anim_alpha (view sample_interrupted) = 0%Q /\
  dismiss quiet no_kwargs sample_dismissing = Ok tt sample_cut_short /\
  trace sample_cut_short =
    trace sample_dismissing ++ [AnimStop 0; RemoveWidget 1; Unbind 1] /\
  _anim_alpha (view sample_cut_short) = 1%Q.
Proof. repeat split. Qed.

Lemma open_dismiss_cycle_witness :
  _is_open (view sample_closed) = false /\
  detached sample_closed /\
  (forall callback (v : ModalView),
     In callback (quiet "on_dismiss") -> callback v = false) /\
  exists w1 w2,
    open quiet immediate sample_closed = Ok tt w1 /\
    dismiss quiet immediate w1 = Ok tt w2 /\
    _is_open (view w2) = false /\
    _window (view w2) = None /\
    Window w2 = sample_Window.
Proof.
  split; [reflexivity |]. split; [exact sample_closed_detached |].
  split; [intros callback v [] |].
  destruct (open_dismiss_cycle quiet None sample_closed eq_refl
              sample_closed_detached
              (or_introl (fun callback v (H : In callback []) =>
                            match H with end)))
    as (w1 & w2 & Hopen & _ & _ & Hdismiss & Hclosed & _ & _ & _ & Hwin & HW).
  exists w1, w2. repeat split; assumption.
Defined.

Lemma touch_gesture_witness :
  window_ok sample_open /\
  auto_dismiss (view sample_open) = true /\
  collide_point (view sample_open) (pos inside) = true /\
  collide_point (view sample_open) (pos outside) = false /\
  (exists w1 w2 w3,
     on_touch_down inside sample_open = Ok PyTrue w1 /\
     on_touch_move outside w1 = Ok PyTrue w2 /\
     on_touch_up quiet outside w2 = Ok PyTrue w3 /\
     trace w3 = trace sample_open ++
                [Super TouchDown inside; Super TouchMove outside;
                 Super TouchUp outside]) /\
  (exists w1,
     on_touch_down outside sample_open = Ok PyTrue w1 /\
     _touch_started_inside (view w1) = Some false /\
     exists w2,
       dismiss quiet no_kwargs w1 = Ok tt w2 /\
       on_touch_up quiet outside w1 = Ok PyTrue (touched None w2)).
Proof.
  split; [exact sample_window_ok |].
  split; [reflexivity |]. split; [reflexivity |]. split; [reflexivity |].
  split.
  - destruct (touch_gesture quiet inside outside outside sample_open)
      as (_ & _ & _ & _ & _ & Hinside).
    destruct (Hinside eq_refl)
      as (w1 & w2 & w3 & Hdown & Hmove & Hup & _ & _ & _ & Htrace).
    exists w1, w2, w3. repeat split; assumption.
  - destruct (touch_gesture quiet outside outside outside sample_open)
      as ((w1 & Hdown & Hflag) & _).
    exists w1. split; [exact Hdown |]. split; [exact Hflag |].
    destruct (touch_gesture quiet outside outside outside w1)
      as (_ & _ & Hout & _).
    assert (Hw1 : w1 = touched (Some false) sample_open).
    { rewrite sample_press_outside in Hdown. injection Hdown as <-.
      reflexivity. }
    assert (Hok : window_ok w1) by (rewrite Hw1; intros _; reflexivity).
    assert (Hauto : auto_dismiss (view w1) = true)
      by (rewrite Hw1; reflexivity).
    destruct (Hout Hok Hauto Hflag) as (w2 & rest & Hdismiss & Hup & _).
    exists w2. split; assumption.
Defined.

Lemma escape_key_dismisses_witness :
  window_ok sample_open /\
  auto_dismiss (view sample_open) = true /\
  (exists w',
     dismiss quiet no_kwargs sample_open = Ok tt w' /\
     _handle_keyboard quiet 27 sample_open = Ok PyTrue w') /\
  _handle_keyboard quiet 13 sample_open = Ok PyNone sample_open.
Proof.
  split; [exact sample_window_ok |]. split; [reflexivity |]. split.
  - destruct (proj1 (escape_key_dismisses quiet 27 sample_open)
                sample_window_ok eq_refl eq_refl)
      as (w' & Hdismiss & Hkey & _).
    exists w'. split; assumption.
  - apply (proj2 (escape_key_dismisses quiet 13 sample_open)).
    left. discriminate.
Defined.

Lemma centering_witness :
  _is_open (view sample_closed) = false /\
  _is_open (view sample_open) = true /\
  _window (view sample_open) = Some TheWindow /\
  (exists w',
     open quiet immediate sample_closed = Ok tt w' /\
     center (view w') = win_center (Window w')) /\
  (exists w',
     Window_resize (512, 384)%Z sample_open = Ok tt w' /\
     center (view w') = (512, 384)%Z) /\
  _align_center sample_closed = Ok tt sample_closed.
Proof.
  split; [reflexivity |]. split; [reflexivity |]. split; [reflexivity |].
  split; [|split].
  - destruct (proj1 (centering quiet sample_closed) (or_introl eq_refl)
                immediate) as (w' & Hrun & Hcenter & _).
    exists w'. split; assumption.
  - destruct (centering quiet sample_open) as (_ & _ & Hresize & _).
    destruct (Hresize (reachable_wf quiet _ (sample_open_reachable quiet))
                eq_refl (512, 384)%Z) as (w' & Hrun & _ & Hcenter).
    exists w'. split; assumption.
  - destruct (centering quiet sample_closed) as (_ & _ & _ & Hnoop & _).
    apply Hnoop. reflexivity.
Defined.



Lemma fbind_accumulates_witness :
  step quiet (OpOpen immediate) sample_closed = Ok tt sample_open /\
  fbinds (view sample_open) = (1, 1) /\
  step quiet (OpDismiss immediate) sample_open = Ok tt sample_removed /\
  fbinds (view sample_removed) = (1, 1).
Proof.
  split; [reflexivity |]. split; [|split; [reflexivity |]].
  - exact (fbind_accumulates quiet (OpOpen immediate)
             sample_closed sample_open eq_refl).
  - exact (fbind_accumulates quiet (OpDismiss immediate)
             sample_open sample_removed eq_refl).
Defined.

Lemma dismiss_keeps_anim_alpha_witness :
  dismiss quiet immediate sample_open = Ok tt sample_removed /\
  _anim_alpha (view sample_open) = 1%Q /\
  _anim_alpha (view sample_removed) = _anim_alpha (view sample_open).
Proof.
  split; [reflexivity |]. split; [reflexivity |].
  exact (dismiss_keeps_anim_alpha quiet immediate
           sample_open sample_removed eq_refl).
Defined.

Lemma reachable_lifecycle_invariant_witness :
  reachable quiet sample_dismissing /\
  _is_open (view sample_dismissing) = true /\
  attached sample_dismissing /\
  center (view sample_dismissing) = win_center (Window sample_dismissing).
Proof.
  split; [exact sample_dismissing_reachable |]. split; [reflexivity |].
  exact (proj1 (reachable_lifecycle_invariant quiet sample_dismissing
                  sample_dismissing_reachable) eq_refl).
Defined.

Lemma reachable_never_raises_witness :
  reachable quiet sample_dismissing /\
  exists w',
    run quiet [OpTouch TouchDown outside; OpKey 27; OpResize (10, 10)%Z;
               OpAnimComplete 0; OpTouch TouchUp outside; OpOpen no_kwargs]
        sample_dismissing = Ok tt w' /\
    reachable quiet w'.
Proof.
  split; [exact sample_dismissing_reachable |].
  exact (reachable_never_raises quiet _ sample_dismissing
           sample_dismissing_reachable).
Defined.

Lemma closed_view_has_no_running_animation_witness :
  reachable quiet sample_reclosed /\
  _is_open (view sample_reclosed) = false /\
  Animation_complete quiet 0 sample_reclosed = Ok tt sample_reclosed.
Proof.
  split; [exact sample_reclosed_reachable |]. split; [reflexivity |].
  exact (proj2 (closed_view_has_no_running_animation quiet sample_reclosed
                  sample_reclosed_reachable eq_refl) 0).
Defined.

Lemma dismiss_after_closing_dismiss_witness :
  _is_open (view sample_open) = true /\
  dismiss quiet immediate sample_open = Ok tt sample_removed /\
  _is_open (view sample_removed) = false /\
  dismiss quiet no_kwargs sample_removed = Ok tt sample_removed.
Proof.
  split; [reflexivity |]. split; [reflexivity |]. split; [reflexivity |].
  exact (proj1 (dismiss_after_closing_dismiss quiet immediate no_kwargs
                  sample_open sample_removed eq_refl eq_refl eq_refl)).
Defined.

Lemma animated_open_matches_immediate_witness :
  _is_open (view sample_closed) = false /\
  exists wa wa' wi,
    open quiet no_kwargs sample_closed = Ok tt wa /\
    Animation_complete quiet 0 wa = Ok tt wa' /\
    open quiet immediate sample_closed = Ok tt wi /\
    view wa' = set__anim (Some 0) (view wi) /\
    Window wa' = Window wi /\
    dispatched (trace wa') = dispatched (trace wi).
Proof.
  split; [reflexivity |].
  exact (animated_open_matches_immediate quiet no_kwargs immediate
           sample_closed eq_refl eq_refl eq_refl).
Defined.

Lemma animated_dismiss_matches_immediate_witness :
  _is_open (view sample_open) = true /\
  attached sample_open /\
  ~ fade_out_in_flight sample_open /\
  exists wa wa' wi,
    dismiss quiet no_kwargs sample_open = Ok tt wa /\
    Animation_complete quiet 0 wa = Ok tt wa' /\
    dismiss quiet immediate sample_open = Ok tt wi /\
    view wa' = set__anim (Some 0) (set__anim_alpha 0 (view wi)) /\
    Window wa' = Window wi /\
    dispatched (trace wa') = dispatched (trace wi).
Proof.
  split; [reflexivity |]. split; [exact sample_open_attached |].
  split; [exact sample_open_calm |].
  exact (animated_dismiss_matches_immediate quiet no_kwargs immediate
           sample_open eq_refl sample_open_attached sample_open_calm
           eq_refl eq_refl eq_refl eq_refl).
Defined.

Lemma outside_gesture_is_not_forwarded_witness :
  window_ok sample_open /\
  auto_dismiss (view sample_open) = true /\
  collide_point (view sample_open) (pos outside) = false /\
  exists wd,
    on_touch_down outside sample_open
      = Ok PyTrue (touched (Some false) sample_open) /\
    on_touch_move inside (touched (Some false) sample_open)
      = Ok PyTrue (touched (Some false) sample_open) /\
    dismiss quiet no_kwargs (touched (Some false) sample_open) = Ok tt wd /\
    on_touch_up quiet outside (touched (Some false) sample_open)
      = Ok PyTrue (touched None wd) /\
    forwarded (trace (touched None wd)) = forwarded (trace sample_open).
Proof.
  split; [exact sample_window_ok |].
  split; [reflexivity |]. split; [reflexivity |].
  exact (outside_gesture_is_not_forwarded quiet outside inside outside
           sample_open sample_window_ok eq_refl eq_refl).
Defined.

Lemma no_auto_dismiss_never_dismisses_witness :
  auto_dismiss (view sample_sticky) = false /\
  on_touch_up quiet outside (touched (Some false) sample_sticky) =
    Ok PyTrue
      (touched None
         (logged (Super TouchUp outside) (touched (Some false) sample_sticky)))
  /\
  _handle_keyboard quiet 27 sample_sticky = Ok PyNone sample_sticky.
Proof.
  split; [reflexivity |]. split.
  - exact (proj1 (proj2 (proj2
             (no_auto_dismiss_never_dismisses quiet outside 27
                (touched (Some false) sample_sticky) eq_refl)))).
  - exact (proj2 (proj2 (proj2
             (no_auto_dismiss_never_dismisses quiet outside 27
                sample_sticky eq_refl)))).
Defined.

Lemma only_on_dismiss_can_veto_witness :
  nagging "on_dismiss" = quiet "on_dismiss" /\
  dismiss nagging no_kwargs sample_open = Ok tt sample_dismissing.
Proof.
  split; [reflexivity |].
  rewrite (only_on_dismiss_can_veto nagging quiet no_kwargs sample_open
             eq_refl).
  reflexivity.
Defined.

End Modal.
